(** * Policy-based singleton coordinator ([pattern::CoreSingleton])

    A shallow embedding of [include/core_singleton.hpp] and of the three
    policy families it is instantiated with
    ([include/allocation_strategy.hpp], [include/disposal_strategy.hpp],
    [include/sync_strategy.hpp]).

    The C++ class has only static members, so one template instantiation
    is one set of process-wide variables.  They are gathered in the record
    [World]; every static member function becomes a computation in a small
    state/exception monad that also records the operations it performs, in
    program order. *)

From Stdlib Require Import String.
From stdpp Require Import base option list gmap sets strings.

(** ** Policies: the three template-template parameters *)

Inductive alloc_strategy :=
| NewAllocationStrategy
| RawMemoryAllocationStrategy
| SmartPointerAllocationStrategy.

Inductive dispose_strategy :=
| StandardDisposalStrategy
| ImmortalStrategy
| ResurrectionStrategy.

Inductive sync_strategy :=
| NoSynchronizationStrategy
| MutexSynchronizationStrategy
| AtomicSynchronizationStrategy
| ThreadLocalStrategy.

(** ** Objects, exceptions, functions registered with [std::atexit] *)

(** The identity of a payload object: the number of the storage request
    that produced its block.  Blocks are never renumbered, so two objects
    built by two requests have two identities. *)
Abbreviation ptr := nat.

(** A thread of the process. *)
Abbreviation tid := nat.

Inductive exn :=
| bad_alloc
| runtime_error (what : string).

Definition dead_instance_message : string :=
  "Attempting to access a destroyed singleton instance".

(** The only function whose address is ever handed to [RegisterForCleanup]. *)
Inductive cleanup_func := DestroyInstanceFn.

(** ** Process-wide state of one instantiation *)

Record World := mkWorld {
  (* CoreSingleton<T,...>: inline static members *)
  instance_ptr_ : option ptr;
  was_destroyed_ : bool;
  (* MutexSynchronizationStrategy<T>::SyncGuard::mutex_ (true = locked) *)
  mutex_ : bool;
  (* AtomicSynchronizationStrategy<T>::SyncGuard::lock_flag_ (true = set) *)
  lock_flag_ : bool;
  (* SmartPointerAllocationStrategy<T>::GetSharedPointer()::ptr_instance *)
  ptr_instance : option ptr;
  (* ThreadLocalStrategy<T>::GetThreadLocalInstance()::local_instance,
     one per thread *)
  local_instance : gmap tid ptr;
  (* functions registered with std::atexit, most recent first *)
  atexit_list : list cleanup_func;
  (* the free store: requests served so far, payload objects whose
     constructor has run and whose destructor has not, and the number of
     constructor runs *)
  next_block : nat;
  live : gset ptr;
  constructed : nat
}.

Definition initial_world : World :=
  mkWorld None false false false None ∅ [] 0 ∅ 0.

Definition set_instance_ptr_ (v : option ptr) (w : World) : World :=
  mkWorld v (was_destroyed_ w) (mutex_ w) (lock_flag_ w) (ptr_instance w)
          (local_instance w) (atexit_list w) (next_block w) (live w)
          (constructed w).

Definition set_was_destroyed_ (b : bool) (w : World) : World :=
  mkWorld (instance_ptr_ w) b (mutex_ w) (lock_flag_ w) (ptr_instance w)
          (local_instance w) (atexit_list w) (next_block w) (live w)
          (constructed w).

Definition set_mutex_ (b : bool) (w : World) : World :=
  mkWorld (instance_ptr_ w) (was_destroyed_ w) b (lock_flag_ w)
          (ptr_instance w) (local_instance w) (atexit_list w) (next_block w)
          (live w) (constructed w).

Definition set_lock_flag_ (b : bool) (w : World) : World :=
  mkWorld (instance_ptr_ w) (was_destroyed_ w) (mutex_ w) b (ptr_instance w)
          (local_instance w) (atexit_list w) (next_block w) (live w)
          (constructed w).

Definition set_ptr_instance (v : option ptr) (w : World) : World :=
  mkWorld (instance_ptr_ w) (was_destroyed_ w) (mutex_ w) (lock_flag_ w) v
          (local_instance w) (atexit_list w) (next_block w) (live w)
          (constructed w).

Definition set_local_instance (m : gmap tid ptr) (w : World) : World :=
  mkWorld (instance_ptr_ w) (was_destroyed_ w) (mutex_ w) (lock_flag_ w)
          (ptr_instance w) m (atexit_list w) (next_block w) (live w)
          (constructed w).

Definition set_atexit_list (fs : list cleanup_func) (w : World) : World :=
  mkWorld (instance_ptr_ w) (was_destroyed_ w) (mutex_ w) (lock_flag_ w)
          (ptr_instance w) (local_instance w) fs (next_block w) (live w)
          (constructed w).

Definition set_next_block (n : nat) (w : World) : World :=
  mkWorld (instance_ptr_ w) (was_destroyed_ w) (mutex_ w) (lock_flag_ w)
          (ptr_instance w) (local_instance w) (atexit_list w) n (live w)
          (constructed w).

Definition set_heap (l : gset ptr) (c : nat) (w : World) : World :=
  mkWorld (instance_ptr_ w) (was_destroyed_ w) (mutex_ w) (lock_flag_ w)
          (ptr_instance w) (local_instance w) (atexit_list w) (next_block w)
          l c.

(** ** Recorded operations *)

Inductive Event :=
| EvGuardCtor                       (* SyncGuard::SyncGuard() *)
| EvGuardDtor                       (* SyncGuard::~SyncGuard() *)
| EvHandleDeadInstance              (* DisposeStrat<T>::HandleDeadInstance() *)
| EvRegisterForCleanup              (* DisposeStrat<T>::RegisterForCleanup(f) *)
| EvAtExit (f : cleanup_func)       (* std::atexit(f) *)
| EvAllocate                        (* AllocStrat<T>::Allocate() *)
| EvDeallocate (v : option ptr)     (* AllocStrat<T>::Deallocate(v) *)
| EvRequest (r : option ptr)        (* malloc / operator new, and its answer *)
| EvConstruct (p : ptr)             (* T::T() in the block p *)
| EvDestruct (p : ptr)              (* T::~T() *)
| EvRelease (p : ptr)               (* free / operator delete *)
| EvInstancePtr (v : option ptr)    (* instance_ptr_ = v *)
| EvWasDestroyed (b : bool).        (* was_destroyed_ = b *)

(** ** The monad: state, exceptions, a record of operations *)

Inductive Outcome (A : Type) :=
| Ok (a : A)          (* returned normally *)
| Throw (e : exn)     (* left by an exception *)
| Hang                (* waits for a lock that nobody will release *)
| Undefined.          (* dereferenced a null pointer *)
Arguments Ok {A} a.
Arguments Throw {A} e.
Arguments Hang {A}.
Arguments Undefined {A}.

Definition M (A : Type) : Type := World -> Outcome A * World * list Event.

Definition ret {A} (a : A) : M A := fun w => (Ok a, w, []).

Definition bind {A B} (m : M A) (k : A -> M B) : M B := fun w =>
  match m w with
  | (Ok a, w1, l1) => let '(r, w2, l2) := k a w1 in (r, w2, l1 ++ l2)
  | (Throw e, w1, l1) => (Throw e, w1, l1)
  | (Hang, w1, l1) => (Hang, w1, l1)
  | (Undefined, w1, l1) => (Undefined, w1, l1)
  end.

Declare Scope cxx_scope.
Delimit Scope cxx_scope with cxx.
Notation "'do' x <- m ; k" := (bind m (fun x => k))
  (at level 10, x name, m at level 100, k at level 200) : cxx_scope.
Notation "m ;' k" := (bind m (fun _ => k))
  (at level 100, k at level 200, right associativity) : cxx_scope.
Open Scope cxx_scope.

Definition throw {A} (e : exn) : M A := fun w => (Throw e, w, []).
Definition hang {A} : M A := fun w => (Hang, w, []).
Definition undefined {A} : M A := fun w => (Undefined, w, []).
Definition emit (e : Event) : M unit := fun w => (Ok tt, w, [e]).
Definition read {A} (f : World -> A) : M A := fun w => (Ok (f w), w, []).
Definition modify (f : World -> World) : M unit := fun w => (Ok tt, f w, []).

(** Scope exit of an object with a destructor: [fin] runs when [body]
    returns and when it throws, and the outcome of [body] is passed on. *)
Definition finally {A} (body : M A) (fin : M unit) : M A := fun w =>
  match body w with
  | (Ok a, w1, l1) => let '(_, w2, l2) := fin w1 in (Ok a, w2, l1 ++ l2)
  | (Throw e, w1, l1) => let '(_, w2, l2) := fin w1 in (Throw e, w2, l1 ++ l2)
  | (Hang, w1, l1) => (Hang, w1, l1)
  | (Undefined, w1, l1) => (Undefined, w1, l1)
  end.

(** ** The free store *)

Section Coordinator.

(** [malloc_ok k] tells whether the [k]-th storage request of the run is
    served; the environment decides, the program cannot. *)
Variable malloc_ok : nat -> bool.

Variable AllocStrat : alloc_strategy.
Variable DisposeStrat : dispose_strategy.
Variable SyncStrat : sync_strategy.

(** [std::malloc(sizeof(T))] and the allocation function of [new]: a block,
    or none. *)
Definition request_block : M (option ptr) := fun w =>
  let k := next_block w in
  let r := if malloc_ok k then Some k else None in
  (Ok r, set_next_block (Datatypes.S k) w, [EvRequest r]).

(** [T::T()] run in the block [p]. *)
Definition construct_at (p : ptr) : M unit := fun w =>
  (Ok tt, set_heap ({[p]} ∪ live w) (S (constructed w)) w, [EvConstruct p]).

(** [T::~T()]. *)
Definition destroy_at (p : ptr) : M unit := fun w =>
  (Ok tt, set_heap (live w ∖ {[p]}) (constructed w) w, [EvDestruct p]).

(** [std::free] and the deallocation function of [delete]. *)
Definition release_block (p : ptr) : M unit := emit (EvRelease p).

(** ** allocation_strategy.hpp *)

(** [return new T();] *)
Definition NewAllocationStrategy_Allocate : M ptr :=
  do r <- request_block;
  match r with
  | None => throw bad_alloc
  | Some p => construct_at p ;' ret p
  end.

(** [delete instance;] ([delete] of a null pointer does nothing) *)
Definition NewAllocationStrategy_Deallocate (instance : option ptr) : M unit :=
  match instance with
  | None => ret tt
  | Some p => destroy_at p ;' release_block p
  end.

Definition RawMemoryAllocationStrategy_Allocate : M ptr :=
  do raw_memory <- request_block;
  match raw_memory with
  | None => throw bad_alloc
  | Some p => construct_at p ;' ret p
  end.

Definition RawMemoryAllocationStrategy_Deallocate (instance : option ptr)
  : M unit :=
  match instance with
  | Some p => destroy_at p ;' release_block p
  | None => ret tt
  end.

(** A [std::shared_ptr] gives up its object; the static handle is the
    only owner the strategy ever creates, so the object goes with it. *)
Definition shared_ptr_release (old : option ptr) : M unit :=
  match old with
  | None => ret tt
  | Some q => destroy_at q ;' release_block q
  end.

Definition SmartPointerAllocationStrategy_Allocate : M ptr :=
  do r <- request_block;
  match r with
  | None => throw bad_alloc
  | Some p =>
      construct_at p ;'
      do old <- read ptr_instance;
      modify (set_ptr_instance (Some p)) ;'
      shared_ptr_release old ;'
      ret p
  end.

Definition SmartPointerAllocationStrategy_Deallocate (_ : option ptr)
  : M unit :=
  do old <- read ptr_instance;
  modify (set_ptr_instance None) ;'
  shared_ptr_release old.

Definition Allocate : M ptr :=
  emit EvAllocate ;'
  match AllocStrat with
  | NewAllocationStrategy => NewAllocationStrategy_Allocate
  | RawMemoryAllocationStrategy => RawMemoryAllocationStrategy_Allocate
  | SmartPointerAllocationStrategy => SmartPointerAllocationStrategy_Allocate
  end.

Definition Deallocate (instance : option ptr) : M unit :=
  emit (EvDeallocate instance) ;'
  match AllocStrat with
  | NewAllocationStrategy => NewAllocationStrategy_Deallocate instance
  | RawMemoryAllocationStrategy =>
      RawMemoryAllocationStrategy_Deallocate instance
  | SmartPointerAllocationStrategy =>
      SmartPointerAllocationStrategy_Deallocate instance
  end.

(** ** disposal_strategy.hpp *)

Definition std_atexit (f : cleanup_func) : M unit :=
  emit (EvAtExit f) ;' modify (fun w => set_atexit_list (f :: atexit_list w) w).

Definition StandardDisposalStrategy_RegisterForCleanup (f : cleanup_func)
  : M unit := std_atexit f.
Definition StandardDisposalStrategy_HandleDeadInstance : M unit :=
  throw (runtime_error dead_instance_message).

Definition ImmortalStrategy_RegisterForCleanup (_ : cleanup_func) : M unit :=
  ret tt.
Definition ImmortalStrategy_HandleDeadInstance : M unit := ret tt.

Definition ResurrectionStrategy_RegisterForCleanup (f : cleanup_func)
  : M unit := std_atexit f.
Definition ResurrectionStrategy_HandleDeadInstance : M unit := ret tt.

Definition RegisterForCleanup (f : cleanup_func) : M unit :=
  emit EvRegisterForCleanup ;'
  match DisposeStrat with
  | StandardDisposalStrategy => StandardDisposalStrategy_RegisterForCleanup f
  | ImmortalStrategy => ImmortalStrategy_RegisterForCleanup f
  | ResurrectionStrategy => ResurrectionStrategy_RegisterForCleanup f
  end.

Definition HandleDeadInstance : M unit :=
  emit EvHandleDeadInstance ;'
  match DisposeStrat with
  | StandardDisposalStrategy => StandardDisposalStrategy_HandleDeadInstance
  | ImmortalStrategy => ImmortalStrategy_HandleDeadInstance
  | ResurrectionStrategy => ResurrectionStrategy_HandleDeadInstance
  end.

(** ** sync_strategy.hpp *)

(** [mutex_.lock()]: waits while the mutex is locked. *)
Definition MutexSynchronizationStrategy_SyncGuard_ctor : M unit :=
  do locked <- read mutex_;
  if locked then hang else modify (set_mutex_ true).
Definition MutexSynchronizationStrategy_SyncGuard_dtor : M unit :=
  modify (set_mutex_ false).

(** [while (lock_flag_.test_and_set(...)) yield();]: spins while the flag
    is set. *)
Definition AtomicSynchronizationStrategy_SyncGuard_ctor : M unit :=
  do was_set <- read lock_flag_;
  if was_set then hang else modify (set_lock_flag_ true).
Definition AtomicSynchronizationStrategy_SyncGuard_dtor : M unit :=
  modify (set_lock_flag_ false).

Definition SyncGuard_ctor : M unit :=
  match SyncStrat with
  | NoSynchronizationStrategy => ret tt
  | MutexSynchronizationStrategy => MutexSynchronizationStrategy_SyncGuard_ctor
  | AtomicSynchronizationStrategy =>
      AtomicSynchronizationStrategy_SyncGuard_ctor
  | ThreadLocalStrategy => ret tt
  end ;' emit EvGuardCtor.

Definition SyncGuard_dtor : M unit :=
  emit EvGuardDtor ;'
  match SyncStrat with
  | NoSynchronizationStrategy => ret tt
  | MutexSynchronizationStrategy => MutexSynchronizationStrategy_SyncGuard_dtor
  | AtomicSynchronizationStrategy =>
      AtomicSynchronizationStrategy_SyncGuard_dtor
  | ThreadLocalStrategy => ret tt
  end.

(** [{ typename SyncStrat<T>::SyncGuard sync_guard; body }] *)
Definition with_sync_guard {B} (body : M B) : M B :=
  SyncGuard_ctor ;' finally body SyncGuard_dtor.

(** [static thread_local T* local_instance = new T(); return *local_instance;]
    run by thread [t]: the initialiser runs the first time [t] passes. *)
Definition GetThreadLocalInstance (t : tid) : M ptr :=
  do mine <- read (fun w => local_instance w !! t);
  match mine with
  | Some p => ret p
  | None =>
      do p <- NewAllocationStrategy_Allocate;
      modify (fun w => set_local_instance (<[t := p]> (local_instance w)) w) ;'
      ret p
  end.

(** ** core_singleton.hpp *)

Definition write_instance_ptr_ (v : option ptr) : M unit :=
  emit (EvInstancePtr v) ;' modify (set_instance_ptr_ v).

Definition write_was_destroyed_ (b : bool) : M unit :=
  emit (EvWasDestroyed b) ;' modify (set_was_destroyed_ b).

(** [return *instance_ptr_;] *)
Definition deref_instance_ptr_ : M ptr :=
  do p <- read instance_ptr_;
  match p with
  | Some p => ret p
  | None => undefined
  end.

Definition GetInstance : M ptr :=
  do fast <- read instance_ptr_;
  match fast with
  | Some _ => ret tt
  | None =>
      with_sync_guard (
        do again <- read instance_ptr_;
        match again with
        | Some _ => ret tt
        | None =>
            do dead <- read was_destroyed_;
            (if dead
             then HandleDeadInstance ;' write_was_destroyed_ false
             else ret tt) ;'
            do p <- Allocate;
            write_instance_ptr_ (Some p) ;'
            RegisterForCleanup DestroyInstanceFn
        end)
  end ;'
  deref_instance_ptr_.

Definition DestroyInstance : M unit :=
  with_sync_guard (
    do p <- read instance_ptr_;
    Deallocate p ;'
    write_instance_ptr_ None ;'
    write_was_destroyed_ true).

(** ** The process around the coordinator *)

(** Normal termination calls the registered functions, last registered
    first; [run_exit_handler] is one such call. *)
Definition run_exit_handler : M unit :=
  do fs <- read atexit_list;
  match fs with
  | [] => ret tt
  | DestroyInstanceFn :: rest =>
      modify (set_atexit_list rest) ;' DestroyInstance
  end.

(** What a caller, or the exit sequence, does to one coordinator.
    [DestroyInstance] is a private member: the only way to run it is to
    let the exit sequence call a registered function. *)
Inductive Op :=
| CallGetInstance
| ExitHandler.

Definition run_op (o : Op) : M (option ptr) :=
  match o with
  | CallGetInstance => do p <- GetInstance; ret (Some p)
  | ExitHandler => run_exit_handler ;' ret None
  end.

(** A sequential run.  A caller may catch an exception and go on; nothing
    follows an operation that never returns. *)
Fixpoint run_ops (ops : list Op) (w : World)
  : list (Outcome (option ptr)) * World * list Event :=
  match ops with
  | [] => ([], w, [])
  | o :: rest =>
      match run_op o w with
      | (Hang, w1, l1) => ([Hang], w1, l1)
      | (Undefined, w1, l1) => ([Undefined], w1, l1)
      | (r, w1, l1) =>
          let '(rs, w2, l2) := run_ops rest w1 in (r :: rs, w2, l1 ++ l2)
      end
  end.

(** ** Threads

    [GetInstance] cut at its accesses to shared variables.  A thread is at
    one of these points; a step takes it to the next one.  The calls into
    the policies are single steps. *)
Inductive pc :=
| AtFastCheck                      (* if (!instance_ptr_) *)
| AtGuardCtor                      (* SyncGuard sync_guard; *)
| AtDoubleCheck                    (* if (!instance_ptr_), guard held *)
| AtTestDestroyed                  (* if (was_destroyed_) *)
| AtHandleDead                     (* HandleDeadInstance(); *)
| AtClearDestroyed                 (* was_destroyed_ = false; *)
| AtAllocate                       (* AllocStrat<T>::Allocate() *)
| AtStore (p : ptr)                (* instance_ptr_ = <the result>; *)
| AtRegister                       (* RegisterForCleanup(&DestroyInstance); *)
| AtGuardDtor (unwinding : option exn)  (* end of the guard's scope *)
| AtReturn                         (* return *instance_ptr_; *)
| Finished (r : Outcome ptr).

(** One step of a thread; [None] when it cannot move: it has finished, or
    it waits for the guard. *)
Definition thread_step (c : pc) (w : World)
  : option (pc * World * list Event) :=
  match c with
  | AtFastCheck =>
      Some (match instance_ptr_ w with
            | Some _ => AtReturn
            | None => AtGuardCtor
            end, w, [])
  | AtGuardCtor =>
      match SyncGuard_ctor w with
      | (Ok _, w1, l) => Some (AtDoubleCheck, w1, l)
      | _ => None
      end
  | AtDoubleCheck =>
      Some (match instance_ptr_ w with
            | Some _ => AtGuardDtor None
            | None => AtTestDestroyed
            end, w, [])
  | AtTestDestroyed =>
      Some (if was_destroyed_ w then AtHandleDead else AtAllocate, w, [])
  | AtHandleDead =>
      match HandleDeadInstance w with
      | (Ok _, w1, l) => Some (AtClearDestroyed, w1, l)
      | (Throw e, w1, l) => Some (AtGuardDtor (Some e), w1, l)
      | _ => None
      end
  | AtClearDestroyed =>
      let '(_, w1, l) := write_was_destroyed_ false w in Some (AtAllocate, w1, l)
  | AtAllocate =>
      match Allocate w with
      | (Ok p, w1, l) => Some (AtStore p, w1, l)
      | (Throw e, w1, l) => Some (AtGuardDtor (Some e), w1, l)
      | _ => None
      end
  | AtStore p =>
      let '(_, w1, l) := write_instance_ptr_ (Some p) w in Some (AtRegister, w1, l)
  | AtRegister =>
      let '(_, w1, l) := RegisterForCleanup DestroyInstanceFn w in
      Some (AtGuardDtor None, w1, l)
  | AtGuardDtor unwinding =>
      let '(_, w1, l) := SyncGuard_dtor w in
      Some (match unwinding with
            | None => AtReturn
            | Some e => Finished (Throw e)
            end, w1, l)
  | AtReturn =>
      let '(r, w1, l) := deref_instance_ptr_ w in Some (Finished r, w1, l)
  | Finished _ => None
  end.

(** A thread left alone until it finishes. *)
Fixpoint run_alone (fuel : nat) (c : pc) (w : World) (l : list Event)
  : Outcome ptr * World * list Event :=
  match c with
  | Finished r => (r, w, l)
  | _ =>
      match fuel with
      | 0 => (Hang, w, l)
      | Datatypes.S fuel' =>
          match thread_step c w with
          | None => (Hang, w, l)
          | Some (c1, w1, l1) => run_alone fuel' c1 w1 (l ++ l1)
          end
      end
  end.

(** The threads of the process, the variables they share and what has
    been done so far. *)
Record Pool := mkPool {
  shared : World;
  trace : list Event;
  threads : list pc
}.

(** [n] threads, each about to call [GetInstance] once. *)
Definition spawn (n : nat) (w : World) : Pool :=
  mkPool w [] (replicate n AtFastCheck).

Definition pool_step (t : tid) (P : Pool) : option Pool :=
  match threads P !! t with
  | None => None
  | Some c =>
      match thread_step c (shared P) with
      | None => None
      | Some (c1, w1, l1) =>
          Some (mkPool w1 (trace P ++ l1) (<[t := c1]> (threads P)))
      end
  end.

(** The scheduler picks the threads in the order [sched]; a thread picked
    while it cannot move yields. *)
Fixpoint schedule (sched : list tid) (P : Pool) : Pool :=
  match sched with
  | [] => P
  | t :: rest =>
      schedule rest (match pool_step t P with Some P1 => P1 | None => P end)
  end.

(** Is the guard's lock taken?  The guards of the other two policies have
    none. *)
Definition guard_held (w : World) : bool :=
  match SyncStrat with
  | MutexSynchronizationStrategy => mutex_ w
  | AtomicSynchronizationStrategy => lock_flag_ w
  | _ => false
  end.

(** The operations of a call of [GetInstance] that creates the object [p]
    in the world [w], in program order. *)
Definition creation_events (w : World) (p : ptr) : list Event :=
  [EvGuardCtor] ++
  (if was_destroyed_ w then [EvHandleDeadInstance; EvWasDestroyed false]
   else []) ++
  [EvAllocate; EvRequest (Some p); EvConstruct p] ++
  match AllocStrat, ptr_instance w with
  | SmartPointerAllocationStrategy, Some q => [EvDestruct q; EvRelease q]
  | _, _ => []
  end ++
  [EvInstancePtr (Some p); EvRegisterForCleanup] ++
  match DisposeStrat with
  | ImmortalStrategy => []
  | _ => [EvAtExit DestroyInstanceFn]
  end ++
  [EvGuardDtor].

(** The operations that only [DestroyInstance] performs. *)
Definition destroy_event (e : Event) : bool :=
  match e with
  | EvDeallocate _ | EvInstancePtr None | EvWasDestroyed true => true
  | _ => false
  end.

(** What the caller gets from each operation of a run that follows the
    teardown of a standard-policy coordinator. *)
Definition after_teardown_result (o : Op) : Outcome (option ptr) :=
  match o with
  | CallGetInstance => Throw (runtime_error dead_instance_message)
  | ExitHandler => Ok None
  end.

(** The operations of a teardown: its registration, the release of the
    instance, the two assignments of [DestroyInstance]. *)
Definition teardown_event (e : Event) : bool :=
  match e with
  | EvAtExit _ | EvDeallocate _ | EvDestruct _ | EvRelease _
  | EvInstancePtr None | EvWasDestroyed true => true
  | _ => false
  end.

(** What [run_op] makes of the outcome of [GetInstance]. *)
Definition as_op_result (r : Outcome ptr) : Outcome (option ptr) :=
  match r with
  | Ok p => Ok (Some p)
  | Throw e => Throw e
  | Hang => Hang
  | Undefined => Undefined
  end.

(** What an immortal coordinator keeps true: nothing is registered, the
    flag is down, and the owning handle of the reference-counted policy is
    empty as long as the slot is. *)
Definition immortal_invariant (w : World) : Prop :=
  atexit_list w = [] /\ was_destroyed_ w = false /\
  (instance_ptr_ w = None -> ptr_instance w = None).

(** The state a teardown leaves: slot empty, flag up, lock free. *)
Definition torn_down (w : World) : Prop :=
  instance_ptr_ w = None /\ was_destroyed_ w = true /\ guard_held w = false.

Definition finished (c : pc) : bool :=
  match c with Finished _ => true | _ => false end.

Definition all_finished (P : Pool) : bool := forallb finished (threads P).

(** *** What the threads keep true *)

(** The guards that exclude. *)
Definition exclusive : Prop :=
  SyncStrat = MutexSynchronizationStrategy \/
  SyncStrat = AtomicSynchronizationStrategy.

(** Between the guard's constructor and its destructor. *)
Definition in_guard (c : pc) : bool :=
  match c with
  | AtDoubleCheck | AtTestDestroyed | AtHandleDead | AtClearDestroyed
  | AtAllocate | AtStore _ | AtRegister | AtGuardDtor _ => true
  | _ => false
  end.

Definition at_store (c : pc) : bool :=
  match c with AtStore _ => true | _ => false end.

(** An upper bound of the steps a thread still has to take. *)
Definition steps_left (c : pc) : nat :=
  match c with
  | AtFastCheck => 11
  | AtGuardCtor => 10
  | AtDoubleCheck => 9
  | AtTestDestroyed => 8
  | AtHandleDead => 7
  | AtClearDestroyed => 6
  | AtAllocate => 5
  | AtStore _ => 4
  | AtRegister => 3
  | AtGuardDtor _ => 2
  | AtReturn => 1
  | Finished _ => 0
  end.

Fixpoint total (g : pc -> nat) (cs : list pc) : nat :=
  match cs with
  | [] => 0
  | c :: cs => g c + total g cs
  end.

Definition count_pcs (f : pc -> bool) : list pc -> nat :=
  total (fun c => if f c then 1 else 0).

(** What a thread at [c] knows of the slot. *)
Definition slot_ok (slot : option ptr) (c : pc) : Prop :=
  match c with
  | AtTestDestroyed | AtHandleDead | AtClearDestroyed | AtAllocate
  | AtStore _ => slot = None
  | AtRegister | AtGuardDtor None | AtReturn => slot <> None
  | Finished (Ok q) => slot = Some q
  | Finished Hang | Finished Undefined => False
  | _ => True
  end.

(** The invariant of a pool whose guard excludes: the lock is taken
    exactly while one thread is inside the guard; the objects constructed
    since the start ([c0] before it) are the one in the slot or the one a
    thread is about to store; each thread is right about the slot. *)
Definition pool_inv (c0 : nat) (P : Pool) : Prop :=
  count_pcs in_guard (threads P)
    = (if guard_held (shared P) then 1 else 0) /\
  constructed (shared P)
    = c0 + match instance_ptr_ (shared P) with Some _ => 1 | None => 0 end
      + count_pcs at_store (threads P) /\
  Forall (slot_ok (instance_ptr_ (shared P))) (threads P).

(** Points only reached through the dead-instance handler or a failed
    allocation. *)
Definition calm (c : pc) : Prop :=
  match c with
  | AtHandleDead | AtClearDestroyed | AtGuardDtor (Some _)
  | Finished (Throw _) => False
  | _ => True
  end.

Definition pool_calm (P : Pool) : Prop :=
  was_destroyed_ (shared P) = false /\ Forall calm (threads P).

End Coordinator.

(** ** A concrete process *)

(** An environment that never runs out of storage. *)
Definition always_ok : nat -> bool := fun _ => true.

(** An environment that has none. *)
Definition never_ok : nat -> bool := fun _ => false.

(** Every thread in turn, [rounds] times. *)
Definition round_robin (n rounds : nat) : list tid :=
  concat (replicate rounds (seq 0 n)).

(** The coordinator of the tests, [ThreadSafeSingleton]: heap allocation,
    standard disposal, mutex.  After its first call, and after the
    teardown that follows. *)
Definition demo_created : World :=
  (GetInstance always_ok NewAllocationStrategy StandardDisposalStrategy
     MutexSynchronizationStrategy initial_world).1.2.

Definition demo_torn_down : World :=
  (DestroyInstance NewAllocationStrategy MutexSynchronizationStrategy
     demo_created).1.2.

(** ** What holds of every state the coordinator reaches *)

(** The objects a slot or a handle refers to. *)
Definition slot_set (v : option ptr) : gset ptr :=
  match v with
  | Some p => {[p]}
  | None => ∅
  end.

(** The functions a coordinator has registered with [std::atexit] and
    that have not run yet. *)
Definition registered_teardowns (D : dispose_strategy) (slot : option ptr)
  : list cleanup_func :=
  match D, slot with
  | ImmortalStrategy, _ => []
  | _, Some _ => [DestroyInstanceFn]
  | _, None => []
  end.

(** The invariant of a coordinator between two operations: the lock is
    free; the live payload objects are the one in the slot; the owning
    handle of the reference-counted policy holds what the slot holds, and
    nothing under the other policies; a teardown is registered exactly
    while the slot is occupied, unless the coordinator is immortal; the
    per-thread variable of [GetThreadLocalInstance] is untouched. *)
Definition coordinator_inv (A : alloc_strategy) (D : dispose_strategy)
    (Sy : sync_strategy) (w : World) : Prop :=
  guard_held Sy w = false /\
  live w = slot_set (instance_ptr_ w) /\
  ptr_instance w =
    match A with
    | SmartPointerAllocationStrategy => instance_ptr_ w
    | _ => None
    end /\
  atexit_list w = registered_teardowns D (instance_ptr_ w) /\
  local_instance w = ∅.

(** The part of normal termination that calls the functions registered
    with [std::atexit], until none is left; [n] bounds their number.  (The
    destructors of static objects, such as the owning handle of the
    reference-counted policy, are not part of it.) *)
Fixpoint run_exit_handlers (A : alloc_strategy) (Sy : sync_strategy)
    (n : nat) : M unit :=
  match n with
  | 0 => ret tt
  | S n => run_exit_handler A Sy ;' run_exit_handlers A Sy n
  end.

Definition atexit_phase (A : alloc_strategy) (Sy : sync_strategy) : M unit :=
  do fs <- read atexit_list;
  run_exit_handlers A Sy (length fs).

Definition guard_event (e : Event) : bool :=
  match e with
  | EvGuardCtor | EvGuardDtor => true
  | _ => false
  end.

(** The heap as the reference-counted policy keeps it when nobody else
    allocates: the live objects are the one its handle owns, and that one
    is older than the next block. *)
Definition smart_inv (w : World) : Prop :=
  live w = slot_set (ptr_instance w) /\
  forall q, ptr_instance w = Some q -> q < next_block w.

(** Two threads and no lock: both pass the two checks of the slot before
    either assigns to it. *)
Definition racing_schedule : list tid :=
  replicate 4 0 ++ replicate 4 1 ++ replicate 7 0 ++ replicate 7 1.

(** ** demo.cpp: [AppSettings] behind [ConfigManager] *)

(** The member [std::map<std::string, std::string> settings_] of an
    [AppSettings] object. *)
Abbreviation settings := (gmap string string).

(** [settings_[key] = value;] and the line written to [std::cout]. *)
Definition AppSettings_setOption (key value : string) (settings_ : settings)
  : settings * string :=
  (<[key := value]> settings_,
   String.append "Option set: "
     (String.append key (String.append " = " value))).

(** [it = settings_.find(key); return it != end ? it->second : "undefined";] *)
Definition AppSettings_getOption (key : string) (settings_ : settings)
  : string :=
  match settings_ !! key with
  | Some value => value
  | None => "undefined"%string
  end.

(** The process of the demo as far as [ConfigManager] goes: the statics
    of the coordinator, the [AppSettings] objects alive, by identity, and
    what has been written to [std::cout]. *)
Record Process := mkProcess {
  statics : World;
  objects : gmap ptr settings;
  cout : list string
}.

Definition initial_process : Process := mkProcess initial_world ∅ [].

(** What the constructor and the destructor of [AppSettings] do when the
    coordinator runs them. *)
Definition payload_event (st : gmap ptr settings * list string) (e : Event)
  : gmap ptr settings * list string :=
  match e with
  | EvConstruct p => (<[p := ∅]> st.1, st.2 ++ ["AppSettings: Loaded"%string])
  | EvDestruct p => (delete p st.1, st.2 ++ ["AppSettings: Saved"%string])
  | _ => st
  end.

Definition run_in_process {B} (m : M B) (P : Process) : Outcome B * Process :=
  let '(r, w1, l) := m (statics P) in
  let st := foldl payload_event (objects P, cout P) l in
  (r, mkProcess w1 st.1 st.2).

Section Demo.

Variable malloc_ok : nat -> bool.

(** [using ConfigManager = CoreSingleton<AppSettings,
    SmartPointerAllocationStrategy, ResurrectionStrategy,
    MutexSynchronizationStrategy>;] *)
Definition ConfigManager_GetInstance : Process -> Outcome ptr * Process :=
  run_in_process
    (GetInstance malloc_ok SmartPointerAllocationStrategy
       ResurrectionStrategy MutexSynchronizationStrategy).

Definition ConfigManager_exit_handler : Process -> Outcome unit * Process :=
  run_in_process
    (run_exit_handler SmartPointerAllocationStrategy
       MutexSynchronizationStrategy).

(** [ConfigManager::GetInstance().setOption(key, value);]  A reference to
    an object that is not alive is undefined behaviour. *)
Definition ConfigManager_setOption (key value : string) (P : Process)
  : Outcome unit * Process :=
  match ConfigManager_GetInstance P with
  | (Ok p, P1) =>
      match objects P1 !! p with
      | Some s =>
          (Ok tt,
           mkProcess (statics P1)
             (<[p := (AppSettings_setOption key value s).1]> (objects P1))
             (cout P1 ++ [(AppSettings_setOption key value s).2]))
      | None => (Undefined, P1)
      end
  | (Throw e, P1) => (Throw e, P1)
  | (Hang, P1) => (Hang, P1)
  | (Undefined, P1) => (Undefined, P1)
  end.

(** [ConfigManager::GetInstance().getOption(key)] *)
Definition ConfigManager_getOption (key : string) (P : Process)
  : Outcome string * Process :=
  match ConfigManager_GetInstance P with
  | (Ok p, P1) =>
      match objects P1 !! p with
      | Some s => (Ok (AppSettings_getOption key s), P1)
      | None => (Undefined, P1)
      end
  | (Throw e, P1) => (Throw e, P1)
  | (Hang, P1) => (Hang, P1)
  | (Undefined, P1) => (Undefined, P1)
  end.

End Demo.

(** The demo's first two calls: [setOption("database.host", "localhost")]
    and [setOption("database.port", "5432")]. *)
Definition demo_one_option : Process :=
  (ConfigManager_setOption always_ok "database.host" "localhost"
     initial_process).2.

Definition demo_two_options : Process :=
  (ConfigManager_setOption always_ok "database.port" "5432"
     demo_one_option).2.

(** ** Counting what a run has done *)

(** How many of the recorded operations satisfy [f]. *)
Definition count_events (f : Event -> bool) (l : list Event) : nat :=
  length (List.filter f l).

(** A call of [AllocStrat<T>::Allocate()]. *)
Definition allocate_call (e : Event) : bool :=
  match e with
  | EvAllocate => true
  | _ => false
  end.

(** A request to the free store that was granted a block. *)
Definition storage_obtained (e : Event) : bool :=
  match e with
  | EvRequest (Some _) => true
  | _ => false
  end.

(** An operation that left by the exception of a failed allocation. *)
Definition failed_allocation (r : Outcome (option ptr)) : bool :=
  match r with
  | Throw bad_alloc => true
  | _ => false
  end.

(** * Properties *)

Arguments GetInstance : simpl never.
Arguments DestroyInstance : simpl never.
Arguments run_exit_handler : simpl never.
Arguments run_op : simpl never.
Arguments run_alone : simpl never.
Arguments Allocate : simpl never.
Arguments HandleDeadInstance : simpl never.
Arguments RegisterForCleanup : simpl never.
Arguments SyncGuard_ctor : simpl never.
Arguments SyncGuard_dtor : simpl never.

(** Unfolds the policies and the monad. *)
Ltac unfold_cxx :=
  unfold GetInstance, DestroyInstance, with_sync_guard,
    finally, SyncGuard_ctor, SyncGuard_dtor, Allocate, Deallocate,
    RegisterForCleanup, HandleDeadInstance, deref_instance_ptr_,
    write_instance_ptr_, write_was_destroyed_,
    NewAllocationStrategy_Allocate, NewAllocationStrategy_Deallocate,
    RawMemoryAllocationStrategy_Allocate,
    RawMemoryAllocationStrategy_Deallocate,
    SmartPointerAllocationStrategy_Allocate,
    SmartPointerAllocationStrategy_Deallocate, shared_ptr_release,
    StandardDisposalStrategy_RegisterForCleanup,
    StandardDisposalStrategy_HandleDeadInstance,
    ImmortalStrategy_RegisterForCleanup, ImmortalStrategy_HandleDeadInstance,
    ResurrectionStrategy_RegisterForCleanup,
    ResurrectionStrategy_HandleDeadInstance,
    MutexSynchronizationStrategy_SyncGuard_ctor,
    MutexSynchronizationStrategy_SyncGuard_dtor,
    AtomicSynchronizationStrategy_SyncGuard_ctor,
    AtomicSynchronizationStrategy_SyncGuard_dtor, std_atexit, request_block,
    construct_at, destroy_at, release_block, bind, ret, throw, hang,
    undefined, emit, read, modify in *.

Ltac unfold_guard := unfold guard_held, exclusive in *.
Ltac unfold_run_op := unfold run_op, bind, ret in *.
Ltac unfold_thread_step := unfold thread_step in *.
Ltac unfold_pool := unfold pool_step, pool_inv, spawn in *.
Ltac unfold_GetInstance := unfold GetInstance, with_sync_guard, finally.

(** ** One call, sequentially *)

Section Sequential.

Context (malloc_ok : nat -> bool) (AllocStrat : alloc_strategy)
        (DisposeStrat : dispose_strategy) (SyncStrat : sync_strategy).

Local Abbreviation GetInstance :=
  (GetInstance malloc_ok AllocStrat DisposeStrat SyncStrat).
Local Abbreviation DestroyInstance := (DestroyInstance AllocStrat SyncStrat).
Local Abbreviation guard_held := (guard_held SyncStrat).



(** The fast path: an occupied slot is returned as it is, nothing else is
    touched. *)
Lemma GetInstance_occupied w p :
  instance_ptr_ w = Some p -> GetInstance w = (Ok p, w, []).
Proof.
  intros H. unfold_cxx. rewrite !H. reflexivity.
Qed.

(** With the lock taken and the slot empty the call waits. *)
Lemma GetInstance_waits w :
  instance_ptr_ w = None -> guard_held w = true ->
  GetInstance w = (Hang, w, []).
Proof.
  intros H G. unfold_cxx. rewrite H. unfold_guard.
  destruct SyncStrat; try discriminate; rewrite G; reflexivity.
Qed.

(** The dead-instance path of the standard policy. *)
Lemma GetInstance_dead_standard w :
  DisposeStrat = StandardDisposalStrategy ->
  instance_ptr_ w = None -> guard_held w = false -> was_destroyed_ w = true ->
  GetInstance w =
    (Throw (runtime_error dead_instance_message), w,
     [EvGuardCtor; EvHandleDeadInstance; EvGuardDtor]).
Proof.
  intros -> H G F. unfold_cxx. unfold_guard.
  destruct w; simpl in *; subst.
  destruct SyncStrat; simpl in *; subst; reflexivity.
Qed.

(** The allocation fails: the exception of the allocation policy leaves
    through the guard, nothing has been stored or registered. *)
Lemma GetInstance_exhausted w :
  instance_ptr_ w = None -> guard_held w = false ->
  was_destroyed_ w = false \/ DisposeStrat <> StandardDisposalStrategy ->
  malloc_ok (next_block w) = false ->
  GetInstance w =
    (Throw bad_alloc,
     set_next_block (S (next_block w)) (set_was_destroyed_ false w),
     [EvGuardCtor] ++
     (if was_destroyed_ w then [EvHandleDeadInstance; EvWasDestroyed false]
      else []) ++
     [EvAllocate; EvRequest None; EvGuardDtor]).
Proof.
  intros H G F O. unfold_cxx. unfold_guard.
  destruct w as [sl fl mu lf pi li ax nb lv cs]; simpl in *; subst.
  destruct F as [-> | F].
  - destruct SyncStrat, AllocStrat; simpl in *; subst; rewrite ?O; simpl;
      rewrite ?O; reflexivity.
  - destruct fl, DisposeStrat; try congruence;
      destruct SyncStrat, AllocStrat; simpl in *; subst; rewrite ?O; simpl;
      rewrite ?O; reflexivity.
Qed.

(** The allocation succeeds: the new object is stored in the slot, the
    flag is down, the teardown is registered as the disposal policy says
    and the guard is released. *)
Lemma GetInstance_creates w :
  instance_ptr_ w = None -> guard_held w = false ->
  was_destroyed_ w = false \/ DisposeStrat <> StandardDisposalStrategy ->
  malloc_ok (next_block w) = true ->
  exists w1,
    GetInstance w =
      (Ok (next_block w), w1,
       creation_events AllocStrat DisposeStrat w (next_block w)) /\
    instance_ptr_ w1 = Some (next_block w) /\
    was_destroyed_ w1 = false /\
    mutex_ w1 = mutex_ w /\ lock_flag_ w1 = lock_flag_ w /\
    local_instance w1 = local_instance w /\
    atexit_list w1 =
      match DisposeStrat with
      | ImmortalStrategy => atexit_list w
      | _ => DestroyInstanceFn :: atexit_list w
      end /\
    next_block w1 = S (next_block w) /\
    constructed w1 = S (constructed w) /\
    ((AllocStrat = SmartPointerAllocationStrategy ->
      ptr_instance w <> Some (next_block w)) -> next_block w ∈ live w1) /\
    ptr_instance w1 =
      match AllocStrat with
      | SmartPointerAllocationStrategy => Some (next_block w)
      | _ => ptr_instance w
      end.
Proof.
  intros H G F O. unfold_cxx. unfold_guard.
  destruct w as [sl fl mu lf pi li ax nb lv cs]; simpl in *; subst.
  assert (Hfl : fl = false \/ (fl = true /\
              DisposeStrat <> StandardDisposalStrategy)).
  { destruct fl; [right | left]; [| done]. destruct F; [done | tauto]. }
  clear F.
  destruct Hfl as [-> | [-> F]];
    destruct DisposeStrat; try congruence;
    destruct SyncStrat, AllocStrat; simpl in *; subst; rewrite ?O; simpl;
    rewrite ?O; simpl; try destruct pi as [q|]; simpl;
    eexists; (split; [reflexivity |]); simpl;
    repeat split;
    first [reflexivity
          | intros Hq; try specialize (Hq eq_refl); set_solver].
Qed.

(** Every call is one of the five above. *)
Lemma GetInstance_cases w :
  (exists p, instance_ptr_ w = Some p /\ GetInstance w = (Ok p, w, [])) \/
  (instance_ptr_ w = None /\ guard_held w = true /\
   GetInstance w = (Hang, w, [])) \/
  (instance_ptr_ w = None /\ guard_held w = false /\
   was_destroyed_ w = true /\ DisposeStrat = StandardDisposalStrategy /\
   GetInstance w =
     (Throw (runtime_error dead_instance_message), w,
      [EvGuardCtor; EvHandleDeadInstance; EvGuardDtor])) \/
  (instance_ptr_ w = None /\ guard_held w = false /\
   (was_destroyed_ w = false \/ DisposeStrat <> StandardDisposalStrategy) /\
   malloc_ok (next_block w) = false /\
   GetInstance w =
     (Throw bad_alloc,
      set_next_block (S (next_block w)) (set_was_destroyed_ false w),
      [EvGuardCtor] ++
      (if was_destroyed_ w then [EvHandleDeadInstance; EvWasDestroyed false]
       else []) ++
      [EvAllocate; EvRequest None; EvGuardDtor])) \/
  (instance_ptr_ w = None /\ guard_held w = false /\
   (was_destroyed_ w = false \/ DisposeStrat <> StandardDisposalStrategy) /\
   malloc_ok (next_block w) = true /\
   exists w1,
     GetInstance w =
       (Ok (next_block w), w1,
        creation_events AllocStrat DisposeStrat w (next_block w)) /\
     instance_ptr_ w1 = Some (next_block w)).
Proof.
  destruct (instance_ptr_ w) as [p|] eqn:Hs.
  { left. exists p. split; [done |]. by apply GetInstance_occupied. }
  right. destruct (guard_held w) eqn:Hg.
  { left. repeat split; try done. by apply GetInstance_waits. }
  right.
  assert (Hd : (was_destroyed_ w = true /\
                DisposeStrat = StandardDisposalStrategy) \/
               (was_destroyed_ w = false \/
                DisposeStrat <> StandardDisposalStrategy)).
  { destruct (was_destroyed_ w); [| by right; left].
    destruct DisposeStrat; [by left | right; right; done ..]. }
  destruct Hd as [[Hf Hd] | Hd].
  { left. repeat split; try done. by apply GetInstance_dead_standard. }
  right. destruct (malloc_ok (next_block w)) eqn:Ho.
  - right. repeat split; try done.
    destruct (GetInstance_creates w Hs Hg Hd Ho) as (w1 & Hr & Hp & _).
    by exists w1.
  - left. repeat split; try done. by apply GetInstance_exhausted.
Qed.

(** [DestroyInstance] with the lock taken waits for it. *)
Lemma DestroyInstance_waits w :
  guard_held w = true -> DestroyInstance w = (Hang, w, []).
Proof.
  intros G. unfold_cxx. unfold_guard.
  destruct SyncStrat; try discriminate; rewrite G; reflexivity.
Qed.

(** [DestroyInstance] with the lock free: the guard, the release of the
    instance by the allocation policy, the two assignments, the end of the
    guard's scope. *)
Lemma DestroyInstance_runs w :
  guard_held w = false ->
  exists wa wd ld wr,
    SyncGuard_ctor SyncStrat w = (Ok tt, wa, [EvGuardCtor]) /\
    Deallocate AllocStrat (instance_ptr_ w) wa =
      (Ok tt, wd, EvDeallocate (instance_ptr_ w) :: ld) /\
    SyncGuard_dtor SyncStrat
      (set_was_destroyed_ true (set_instance_ptr_ None wd)) =
      (Ok tt, wr, [EvGuardDtor]) /\
    DestroyInstance w =
      (Ok tt, wr,
       [EvGuardCtor; EvDeallocate (instance_ptr_ w)] ++ ld ++
       [EvInstancePtr None; EvWasDestroyed true; EvGuardDtor]) /\
    instance_ptr_ wr = None /\ was_destroyed_ wr = true /\
    guard_held wr = false /\
    atexit_list wr = atexit_list w /\ next_block wr = next_block w /\
    constructed wr = constructed w /\
    (AllocStrat = SmartPointerAllocationStrategy -> ptr_instance wr = None).
Proof.
  intros G. unfold_cxx. unfold_guard.
  destruct w as [sl fl mu lf pi li ax nb lv cs]; simpl in *.
  destruct SyncStrat; simpl in *; subst;
    destruct AllocStrat; simpl; try destruct sl as [p|]; simpl;
    try destruct pi as [q|]; simpl;
    eexists _, _, _, _; repeat split; try reflexivity; try discriminate.
Qed.

Lemma DestroyInstance_done w w1 l :
  DestroyInstance w = (Ok tt, w1, l) ->
  guard_held w = false /\
  instance_ptr_ w1 = None /\ was_destroyed_ w1 = true /\
  guard_held w1 = false /\
  atexit_list w1 = atexit_list w /\ next_block w1 = next_block w /\
  constructed w1 = constructed w /\
  (AllocStrat = SmartPointerAllocationStrategy -> ptr_instance w1 = None).
Proof.
  intros H. destruct (guard_held w) eqn:G.
  { rewrite DestroyInstance_waits in H by done. discriminate. }
  destruct (DestroyInstance_runs w G) as (wa & wd & ld & wr & _ & _ & _ & Hr & P).
  rewrite Hr in H. injection H as <- <-. split; [done | exact P].
Qed.

End Sequential.

(** ** Sequences of operations *)

Section Runs.

Context (malloc_ok : nat -> bool) (AllocStrat : alloc_strategy)
        (DisposeStrat : dispose_strategy) (SyncStrat : sync_strategy).

Local Abbreviation GetInstance :=
  (GetInstance malloc_ok AllocStrat DisposeStrat SyncStrat).
Local Abbreviation run_op :=
  (run_op malloc_ok AllocStrat DisposeStrat SyncStrat).
Local Abbreviation run_ops :=
  (run_ops malloc_ok AllocStrat DisposeStrat SyncStrat).

Lemma run_op_CallGetInstance w :
  run_op CallGetInstance w =
    (as_op_result (GetInstance w).1.1, (GetInstance w).1.2, (GetInstance w).2).
Proof.
  unfold_run_op.
  destruct (GetInstance w) as [[[p|e| |] w1] l]; simpl; try done.
  by rewrite app_nil_r.
Qed.

(** A call that returns leaves the slot occupied by what it returns. *)
Lemma GetInstance_returns_slot w p w1 l :
  GetInstance w = (Ok p, w1, l) -> instance_ptr_ w1 = Some p.
Proof.
  intros H.
  destruct (GetInstance_cases malloc_ok AllocStrat DisposeStrat SyncStrat w)
    as [(q & Hq & E) | [(_ & _ & E) | [(_ & _ & _ & _ & E) |
        [(_ & _ & _ & _ & E) | (_ & _ & _ & _ & w2 & E & Hp)]]]];
    rewrite E in H; try discriminate.
  - by injection H as <- <- <-.
  - by injection H as <- <- <-.
Qed.

(** While the slot is occupied and no teardown runs, every call returns
    its content and changes nothing. *)
Lemma run_ops_occupied n w p :
  instance_ptr_ w = Some p ->
  run_ops (replicate n CallGetInstance) w = (replicate n (Ok (Some p)), w, []).
Proof.
  intros H. induction n as [|n IH]; [done |].
  simpl. rewrite run_op_CallGetInstance.
  rewrite (GetInstance_occupied _ _ _ _ w p H). simpl. by rewrite IH.
Qed.

(** From an occupied slot, a call that returns another identity comes
    after a teardown. *)
Lemma run_ops_identity_from_slot ops : forall w p j q,
  instance_ptr_ w = Some p ->
  (run_ops ops w).1.1 !! j = Some (Ok (Some q)) -> q <> p ->
  exists k, k < j /\ ops !! k = Some ExitHandler.
Proof.
  induction ops as [|o ops IH]; intros w p j q Hs Hj Hne; [done |].
  destruct o.
  - simpl in Hj. rewrite run_op_CallGetInstance in Hj.
    rewrite (GetInstance_occupied _ _ _ _ w p Hs) in Hj. simpl in Hj.
    destruct (run_ops ops w) as [[rs w2] l2] eqn:E. simpl in Hj.
    destruct j as [|j]; simpl in Hj; [congruence |].
    destruct (IH w p j q Hs) as (k & Hk & Ho); [by rewrite E | done |].
    exists (S k). split; [lia | done].
  - destruct j as [|j].
    + exfalso. simpl in Hj. unfold_run_op.
      destruct (run_exit_handler _ _ w) as [[[[]|e| |] w1] l1]; simpl in Hj;
        try discriminate;
        destruct (run_ops ops w1) as [[rs w2] l2]; simpl in Hj; discriminate.
    + exists 0. split; [lia | done].
Qed.

(** Two calls of one run that return two identities have a teardown
    between them. *)
Lemma run_ops_identity_change ops : forall w i j p q,
  i < j ->
  (run_ops ops w).1.1 !! i = Some (Ok (Some p)) ->
  (run_ops ops w).1.1 !! j = Some (Ok (Some q)) -> p <> q ->
  exists k, i < k < j /\ ops !! k = Some ExitHandler.
Proof.
  induction ops as [|o ops IH]; intros w i j p q Hij Hi Hj Hne; [done |].
  destruct j as [|j]; [lia |].
  simpl in Hi, Hj.
  destruct (run_op o w) as [[r w1] l1] eqn:Er.
  destruct i as [|i].
  - assert (r = Ok (Some p) /\
            (run_ops ops w1).1.1 !! j = Some (Ok (Some q))) as [-> Hj'].
    { destruct r as [a|e| |]; simpl in *;
        destruct (run_ops ops w1) as [[rs w2] l2]; simpl in *;
        try discriminate; split; congruence. }
    destruct o.
    + rewrite run_op_CallGetInstance in Er.
      destruct (GetInstance w) as [[r0 w0] l0] eqn:Eg. simpl in Er.
      destruct r0 as [a|e| |]; simpl in Er; try discriminate.
      injection Er as -> -> ->.
      apply GetInstance_returns_slot in Eg.
      destruct (run_ops_identity_from_slot ops w1 p j q Eg Hj') as (k & Hk & Ho);
        [congruence |].
      exists (S k). split; [lia | done].
    + exfalso. unfold_run_op.
      destruct (run_exit_handler _ _ w) as [[[[]|e| |] w0] l0]; simpl in Er;
        congruence.
  - assert ((run_ops ops w1).1.1 !! i = Some (Ok (Some p)) /\
            (run_ops ops w1).1.1 !! j = Some (Ok (Some q))) as [Hi' Hj'].
    { destruct r as [a|e| |]; simpl in *;
        destruct (run_ops ops w1) as [[rs w2] l2]; simpl in *;
        try done; destruct i; discriminate. }
    destruct (IH w1 i j p q) as (k & Hk & Ho); [lia | done | done | done |].
    exists (S k). split; [lia | done].
Qed.

(** Once a call has returned, the later calls of a run without teardown
    return the same. *)
Lemma run_ops_calls_later n : forall w i j p,
  (run_ops (replicate n CallGetInstance) w).1.1 !! i = Some (Ok (Some p)) ->
  i <= j < n ->
  (run_ops (replicate n CallGetInstance) w).1.1 !! j = Some (Ok (Some p)).
Proof.
  induction n as [|n IH]; intros w i j p Hi Hj; [lia |].
  simpl in *. rewrite run_op_CallGetInstance in *.
  destruct (GetInstance w) as [[r0 w0] l0] eqn:Eg. simpl in *.
  destruct r0 as [a|e| |]; simpl in *.
  - apply GetInstance_returns_slot in Eg.
    rewrite (run_ops_occupied n w0 a Eg) in *. simpl in *.
    change (Ok (Some a) :: replicate n (Ok (Some a)))
      with (replicate (S n) (Ok (Some a) : Outcome (option ptr))) in *.
    apply lookup_replicate in Hi as [-> _].
    apply lookup_replicate. split; [done | lia].
  - destruct (run_ops (replicate n CallGetInstance) w0) as [[rs w2] l2] eqn:E.
    simpl in *. destruct i as [|i]; [discriminate |].
    destruct j as [|j]; [lia |]. simpl in *.
    specialize (IH w0 i j p). rewrite E in IH. apply IH; [done | lia].
  - destruct i; discriminate.
  - destruct i; discriminate.
Qed.

(** A run of calls without teardown constructs at most one object. *)
Lemma run_ops_calls_construct_once n : forall w,
  constructed (run_ops (replicate n CallGetInstance) w).1.2
    <= S (constructed w).
Proof.
  induction n as [|n IH]; intros w; [simpl; lia |].
  destruct (GetInstance_cases malloc_ok AllocStrat DisposeStrat SyncStrat w)
    as [(q & Hq & E) | [(_ & _ & E) | [(_ & _ & _ & _ & E) |
        [(_ & _ & _ & _ & E) | (Hs & Hg & Hd & Ho & _)]]]].
  - rewrite (run_ops_occupied (S n) w q Hq). simpl. lia.
  - simpl. rewrite run_op_CallGetInstance, E. simpl. lia.
  - simpl. rewrite run_op_CallGetInstance, E. simpl.
    specialize (IH w).
    destruct (run_ops (replicate n CallGetInstance) w) as [[rs w2] l2].
    simpl in *. lia.
  - simpl. rewrite run_op_CallGetInstance, E. simpl.
    specialize (IH (set_next_block (S (next_block w))
                      (set_was_destroyed_ false w))).
    destruct (run_ops (replicate n CallGetInstance) _) as [[rs w2] l2].
    simpl in *. lia.
  - destruct (GetInstance_creates malloc_ok AllocStrat DisposeStrat SyncStrat
                w Hs Hg Hd Ho)
      as (w1 & E & Hp & _ & _ & _ & _ & _ & _ & Hc & _).
    simpl. rewrite run_op_CallGetInstance, E. simpl.
    rewrite (run_ops_occupied n w1 _ Hp). simpl. lia.
Qed.

End Runs.

(** An immortal coordinator keeps its invariant, and none of its
    operations belongs to a teardown. *)
Lemma immortal_run_op malloc_ok A Sy o w :
  immortal_invariant w ->
  immortal_invariant (run_op malloc_ok A ImmortalStrategy Sy o w).1.2 /\
  Forall (fun e => teardown_event e = false)
         (run_op malloc_ok A ImmortalStrategy Sy o w).2.
Proof.
  intros (Hx & Hf & Hp). destruct o.
  - rewrite run_op_CallGetInstance. simpl.
    destruct (GetInstance_cases malloc_ok A ImmortalStrategy Sy w)
      as [(q & Hq & E) | [(_ & _ & E) | [(_ & _ & _ & Hd & E) |
          [(Hs & _ & _ & _ & E) | (Hs & Hg & Hd & Ho & _)]]]];
      try discriminate.
    + rewrite E. simpl. split; [done | constructor].
    + rewrite E. simpl. split; [done | constructor].
    + rewrite E. simpl. rewrite Hf. split; [| repeat constructor].
      split_and!; try done.
    + destruct (GetInstance_creates malloc_ok A ImmortalStrategy Sy
                  w Hs Hg Hd Ho)
        as (w1 & E & Hp1 & Hf1 & _ & _ & _ & Hx1 & _).
      rewrite E. simpl. split.
      * split_and!; [congruence | done | congruence].
      * unfold creation_events. rewrite Hf, (Hp Hs).
        destruct A; repeat constructor.
  - unfold run_op, run_exit_handler, bind, read, ret. rewrite Hx. simpl.
    split; [done | constructor].
Qed.

Lemma immortal_run_ops malloc_ok A Sy ops : forall w,
  immortal_invariant w ->
  immortal_invariant (run_ops malloc_ok A ImmortalStrategy Sy ops w).1.2 /\
  Forall (fun e => teardown_event e = false)
         (run_ops malloc_ok A ImmortalStrategy Sy ops w).2.
Proof.
  induction ops as [|o ops IH]; intros w Hw; [by split; [| constructor] |].
  simpl. destruct (immortal_run_op malloc_ok A Sy o w Hw) as [H1 H2].
  destruct (run_op malloc_ok A ImmortalStrategy Sy o w) as [[r w1] l1].
  simpl in *. destruct (IH w1 H1) as [H3 H4].
  destruct (run_ops malloc_ok A ImmortalStrategy Sy ops w1) as [[rs w2] l2].
  destruct r; simpl in *; try done.
  all: split; [done | by apply Forall_app].
Qed.

(** After the teardown of a standard-policy coordinator every operation
    leaves the coordinator torn down, and no request for storage and no
    construction happens. *)
Lemma standard_torn_down_run_op malloc_ok A Sy o w :
  torn_down Sy w ->
  exists w1 l1,
    run_op malloc_ok A StandardDisposalStrategy Sy o w =
      (after_teardown_result o, w1, l1) /\
    torn_down Sy w1 /\
    next_block w1 = next_block w /\ constructed w1 = constructed w.
Proof.
  intros (Hs & Hf & Hg). destruct o.
  - rewrite run_op_CallGetInstance.
    rewrite (GetInstance_dead_standard malloc_ok A _ Sy w eq_refl Hs Hg Hf).
    simpl. by eexists _, _.
  - unfold run_op, run_exit_handler, bind, read, modify, ret.
    destruct (atexit_list w) as [|[] rest] eqn:Hx; simpl.
    + by eexists _, _.
    + destruct (DestroyInstance_runs A Sy (set_atexit_list rest w))
        as (wa & wd & ld & wr & _ & _ & _ & E & P1 & P2 & P3 & _ & P4 & P5 & _);
        [by destruct Sy |].
      rewrite E. simpl. eexists _, _. split; [done |]. by split_and!.
Qed.


(** ** The invariant of the coordinator *)

Section Reachable.

Context (malloc_ok : nat -> bool) (A : alloc_strategy)
        (D : dispose_strategy) (Sy : sync_strategy).

(** The heap after a creation: the new object joins the live ones. *)
Lemma GetInstance_creates_live w :
  instance_ptr_ w = None -> guard_held Sy w = false ->
  was_destroyed_ w = false \/ D <> StandardDisposalStrategy ->
  malloc_ok (next_block w) = true ->
  (A = SmartPointerAllocationStrategy -> ptr_instance w = None) ->
  live (GetInstance malloc_ok A D Sy w).1.2 = {[next_block w]} ∪ live w.
Proof.
  intros H G F O Hp. unfold_cxx. unfold_guard.
  destruct w as [sl fl mu lf pi li ax nb lv cs]; simpl in *; subst.
  assert (Hfl : fl = false \/ (fl = true /\ D <> StandardDisposalStrategy)).
  { destruct fl; [right | left]; [| done]. destruct F; [done | tauto]. }
  clear F.
  destruct Hfl as [-> | [-> F]];
    destruct D; try congruence;
    destruct Sy, A; simpl in *; subst; rewrite ?O; simpl;
    rewrite ?O; simpl; try rewrite (Hp eq_refl); reflexivity.
Qed.

(** The heap after the destroy routine: the object released is the
    slot's, or the handle's under the reference-counted policy. *)
Lemma DestroyInstance_heap w :
  guard_held Sy w = false ->
  live (DestroyInstance A Sy w).1.2 =
    live w ∖ slot_set match A with
                      | SmartPointerAllocationStrategy => ptr_instance w
                      | _ => instance_ptr_ w
                      end /\
  ptr_instance (DestroyInstance A Sy w).1.2 =
    match A with
    | SmartPointerAllocationStrategy => None
    | _ => ptr_instance w
    end /\
  local_instance (DestroyInstance A Sy w).1.2 = local_instance w.
Proof.
  intros G. unfold_cxx. unfold_guard.
  destruct w as [sl fl mu lf pi li ax nb lv cs]; simpl in *.
  destruct Sy; simpl in *; subst;
    destruct A; simpl; try destruct sl as [p|]; simpl;
    try destruct pi as [q|]; simpl; split_and!; try reflexivity;
    by rewrite difference_empty_L.
Qed.

Lemma coordinator_inv_initial : coordinator_inv A D Sy initial_world.
Proof.
  unfold coordinator_inv, guard_held. simpl.
  split_and!; try done;
    first [by destruct Sy | by destruct A | by destruct D].
Qed.

Lemma coordinator_inv_GetInstance w :
  coordinator_inv A D Sy w ->
  coordinator_inv A D Sy (GetInstance malloc_ok A D Sy w).1.2.
Proof.
  intros I. pose proof I as (Ig & Il & Ip & Ix & Ii).
  destruct (GetInstance_cases malloc_ok A D Sy w)
    as [(q & Hq & E) | [(_ & _ & E) | [(_ & _ & _ & _ & E) |
        [(Hs & _ & _ & _ & E) | (Hs & Hg & Hd & Ho & _)]]]].
  - by rewrite E.
  - by rewrite E.
  - by rewrite E.
  - rewrite E. simpl. unfold coordinator_inv, guard_held in *. simpl.
    by split_and!.
  - assert (Hp : A = SmartPointerAllocationStrategy -> ptr_instance w = None).
    { intros ->. by rewrite Ip. }
    pose proof (GetInstance_creates_live w Hs Hg Hd Ho Hp) as Hl.
    destruct (GetInstance_creates malloc_ok A D Sy w Hs Hg Hd Ho)
      as (w1 & E & P1 & P2 & P3 & P4 & P5 & P6 & P7 & P8 & P9 & P10).
    rewrite E in *. simpl in *.
    unfold coordinator_inv, guard_held in *.
    rewrite P1, P3, P4, P5, P6, P10, Hl, Il, Hs, Ix, Hs. simpl.
    unfold registered_teardowns. split_and!; try done.
    + set_solver.
    + destruct A; try done.
    + by destruct D.
Qed.

Lemma coordinator_inv_run_exit_handler w :
  coordinator_inv A D Sy w ->
  (run_exit_handler A Sy w).1.1 = Ok tt /\
  coordinator_inv A D Sy (run_exit_handler A Sy w).1.2.
Proof.
  intros I. pose proof I as (Ig & Il & Ip & Ix & Ii).
  unfold run_exit_handler, bind, read, modify, ret.
  destruct (atexit_list w) as [|[] rest] eqn:Hx; simpl; [done |].
  assert (Hr : rest = [] /\ D <> ImmortalStrategy /\
               exists p, instance_ptr_ w = Some p).
  { unfold registered_teardowns in Ix.
    destruct D, (instance_ptr_ w); simplify_eq; eauto. }
  destruct Hr as (-> & HD & p & Hs).
  assert (G : guard_held Sy (set_atexit_list [] w) = false) by by destruct Sy.
  destruct (DestroyInstance_heap (set_atexit_list [] w) G) as (Hl & Hp & Hi).
  destruct (DestroyInstance_runs A Sy (set_atexit_list [] w) G)
    as (wa & wd & ld & wr & _ & _ & _ & E & P1 & P2 & P3 & P4 & _).
  rewrite E in *. simpl in *. split; [done |].
  unfold coordinator_inv. rewrite P1, P3, P4, Hl, Hp, Hi, Il, Ip, Hs. simpl.
  unfold registered_teardowns. split_and!; try done.
  - destruct A; set_solver.
  - by destruct A.
  - by destruct D.
Qed.

Lemma coordinator_inv_run_op o w :
  coordinator_inv A D Sy w ->
  coordinator_inv A D Sy (run_op malloc_ok A D Sy o w).1.2.
Proof.
  intros I. destruct o.
  - rewrite run_op_CallGetInstance. simpl. by apply coordinator_inv_GetInstance.
  - destruct (coordinator_inv_run_exit_handler w I) as [Hr Hi].
    unfold run_op, bind, ret.
    destruct (run_exit_handler A Sy w) as [[[[]|e| |] w1] l1]; done.
Qed.

Lemma coordinator_inv_run_ops ops : forall w,
  coordinator_inv A D Sy w ->
  coordinator_inv A D Sy (run_ops malloc_ok A D Sy ops w).1.2.
Proof.
  induction ops as [|o ops IH]; intros w I; [done |].
  simpl. pose proof (coordinator_inv_run_op o w I) as I1.
  destruct (run_op malloc_ok A D Sy o w) as [[r w1] l1]. simpl in I1.
  specialize (IH w1 I1).
  destruct (run_ops malloc_ok A D Sy ops w1) as [[rs w2] l2].
  destruct r; done.
Qed.

End Reachable.

(** ** Creation, and the count of allocations *)

(** A creation calls [Allocate] once, and is granted one block. *)
Lemma creation_events_allocate_once A D w p :
  count_events allocate_call (creation_events A D w p) = 1 /\
  count_events storage_obtained (creation_events A D w p) = 1.
Proof.
  unfold creation_events.
  destruct (was_destroyed_ w), A, D, (ptr_instance w); split; reflexivity.
Qed.

(** A call of [GetInstance] calls [Allocate] at most once. *)
Lemma GetInstance_allocates_at_most_once malloc_ok A D Sy w :
  count_events allocate_call (GetInstance malloc_ok A D Sy w).2 <= 1.
Proof.
  destruct (GetInstance_cases malloc_ok A D Sy w)
    as [(q & Hq & E) | [(_ & _ & E) | [(_ & _ & _ & _ & E) |
        [(_ & _ & _ & _ & E) | (_ & _ & _ & _ & w1 & E & _)]]]];
    rewrite E; simpl.
  - unfold count_events. simpl. lia.
  - unfold count_events. simpl. lia.
  - unfold count_events. simpl. lia.
  - destruct (was_destroyed_ w); unfold count_events; simpl; lia.
  - by rewrite (proj1 (creation_events_allocate_once A D w (next_block w))).
Qed.

Lemma no_failed_allocation_in_returns n (v : option ptr) :
  List.filter failed_allocation (replicate n (Ok v)) = [].
Proof. induction n as [|n IH]; [done | exact IH]. Qed.

(** In a run of calls without teardown every call of [Allocate] either
    constructs an object or is a call that fails by [bad_alloc], and every
    block granted holds an object constructed by the run. *)
Lemma run_ops_calls_allocations malloc_ok A D Sy n : forall w,
  count_events allocate_call
    (run_ops malloc_ok A D Sy (replicate n CallGetInstance) w).2
  + constructed w
  = length (List.filter failed_allocation
              (run_ops malloc_ok A D Sy (replicate n CallGetInstance) w).1.1)
    + constructed (run_ops malloc_ok A D Sy (replicate n CallGetInstance)
                     w).1.2 /\
  count_events storage_obtained
    (run_ops malloc_ok A D Sy (replicate n CallGetInstance) w).2
  + constructed w
  = constructed (run_ops malloc_ok A D Sy (replicate n CallGetInstance)
                   w).1.2.
Proof.
  induction n as [|n IH]; intros w; [split; reflexivity |].
  destruct (GetInstance_cases malloc_ok A D Sy w)
    as [(q & Hq & E) | [(_ & _ & E) | [(_ & _ & _ & _ & E) |
        [(_ & _ & _ & _ & E) | (Hs & Hg & Hd & Ho & _)]]]].
  - rewrite (run_ops_occupied malloc_ok A D Sy (S n) w q Hq). simpl.
    by rewrite no_failed_allocation_in_returns.
  - simpl. rewrite run_op_CallGetInstance, E. split; reflexivity.
  - simpl. rewrite run_op_CallGetInstance, E. simpl.
    specialize (IH w).
    destruct (run_ops malloc_ok A D Sy (replicate n CallGetInstance) w)
      as [[rs w2] l2].
    simpl in *. exact IH.
  - simpl. rewrite run_op_CallGetInstance, E. simpl.
    specialize (IH (set_next_block (S (next_block w))
                      (set_was_destroyed_ false w))).
    destruct (run_ops malloc_ok A D Sy (replicate n CallGetInstance) _)
      as [[rs w2] l2].
    destruct (was_destroyed_ w); unfold count_events in *; simpl in *; lia.
  - destruct (GetInstance_creates malloc_ok A D Sy w Hs Hg Hd Ho)
      as (w1 & E & Hp & _ & _ & _ & _ & _ & _ & Hc & _).
    destruct (creation_events_allocate_once A D w (next_block w)) as [H1 H2].
    set (ce := creation_events A D w (next_block w)) in *. clearbody ce.
    simpl. rewrite run_op_CallGetInstance, E. simpl.
    rewrite (run_ops_occupied malloc_ok A D Sy n w1 _ Hp). simpl.
    rewrite app_nil_r, no_failed_allocation_in_returns. simpl.
    unfold count_events in *. lia.
Qed.

(** A creation, followed by any number of further calls. *)
Lemma run_ops_creates malloc_ok A D Sy w w1 l n :
  GetInstance malloc_ok A D Sy w = (Ok (next_block w), w1, l) ->
  instance_ptr_ w1 = Some (next_block w) ->
  run_ops malloc_ok A D Sy (replicate (S n) CallGetInstance) w
  = (replicate (S n) (Ok (Some (next_block w))), w1, l).
Proof.
  intros E Hp. simpl. rewrite run_op_CallGetInstance, E. simpl.
  rewrite (run_ops_occupied malloc_ok A D Sy n w1 _ Hp). simpl.
  by rewrite app_nil_r.
Qed.

(** The operations of the first creation of a program. *)
Lemma creation_events_initial A D :
  creation_events A D initial_world 0 =
    [EvGuardCtor; EvAllocate; EvRequest (Some 0); EvConstruct 0;
     EvInstancePtr (Some 0); EvRegisterForCleanup] ++
    match D with
    | ImmortalStrategy => []
    | _ => [EvAtExit DestroyInstanceFn]
    end ++
    [EvGuardDtor].
Proof. by destruct A, D. Qed.

(** ** The claims about one coordinator used sequentially *)

(** C3.  Standard disposal: once the destroy routine has run, the next
    call of [GetInstance] leaves by the dead-instance exception.  The
    exception reaches the caller, and nothing is recreated: the world is
    the one the teardown left, and the only operations are the guard and
    the handler. *)
Theorem standard_rejects_dead_instance
    (malloc_ok : nat -> bool) (A : alloc_strategy) (Sy : sync_strategy)
    (w w1 : World) (l1 : list Event) :
  DestroyInstance A Sy w = (Ok tt, w1, l1) ->
  GetInstance malloc_ok A StandardDisposalStrategy Sy w1 =
    (Throw (runtime_error dead_instance_message), w1,
     [EvGuardCtor; EvHandleDeadInstance; EvGuardDtor]).
Proof.
  intros H. apply DestroyInstance_done in H as (_ & Hs & Hf & Hg & _).
  by apply GetInstance_dead_standard.
Qed.

(** C4.  Resurrection disposal: once the destroy routine has run, the
    handler called by the next [GetInstance] does nothing, the flag is
    cleared and the allocation proceeds as on a first call; with storage
    available the call returns a newly constructed, live instance and
    registers its teardown.  A failure of the allocation itself is the
    only exception the call can leave by. *)
Theorem resurrection_recreates
    (malloc_ok : nat -> bool) (A : alloc_strategy) (Sy : sync_strategy)
    (w w1 : World) (l1 : list Event) :
  DestroyInstance A Sy w = (Ok tt, w1, l1) ->
  HandleDeadInstance ResurrectionStrategy w1 =
    (Ok tt, w1, [EvHandleDeadInstance]) /\
  (malloc_ok (next_block w1) = true ->
   exists w2,
     GetInstance malloc_ok A ResurrectionStrategy Sy w1 =
       (Ok (next_block w1), w2,
        [EvGuardCtor; EvHandleDeadInstance; EvWasDestroyed false;
         EvAllocate; EvRequest (Some (next_block w1));
         EvConstruct (next_block w1); EvInstancePtr (Some (next_block w1));
         EvRegisterForCleanup; EvAtExit DestroyInstanceFn; EvGuardDtor]) /\
     instance_ptr_ w2 = Some (next_block w1) /\
     was_destroyed_ w2 = false /\
     next_block w1 ∈ live w2 /\
     constructed w2 = S (constructed w1) /\
     guard_held Sy w2 = false /\
     atexit_list w2 = DestroyInstanceFn :: atexit_list w1) /\
  (malloc_ok (next_block w1) = false ->
   exists w2 l2,
     GetInstance malloc_ok A ResurrectionStrategy Sy w1 =
       (Throw bad_alloc, w2, l2) /\ was_destroyed_ w2 = false).
Proof.
  intros H.
  apply DestroyInstance_done in H as (_ & Hs & Hf & Hg & _ & _ & _ & Hp).
  split; [reflexivity |]. split.
  - intros Ho.
    destruct (GetInstance_creates malloc_ok A ResurrectionStrategy Sy w1)
      as (w2 & Hr & P1 & P2 & P3 & P4 & _ & P5 & _ & P6 & P7 & _);
      [done | done | by right | done |].
    exists w2. rewrite Hr. unfold creation_events. rewrite Hf.
    assert (match A with
            | SmartPointerAllocationStrategy =>
                match ptr_instance w1 with
                | Some q => [EvDestruct q; EvRelease q]
                | None => []
                end
            | _ => []
            end = []) as ->.
    { destruct A; try done. by rewrite Hp. }
    repeat split; try done.
    + apply P7. intros ->. by rewrite Hp.
    + unfold guard_held in *. destruct Sy; congruence.
  - intros Ho. eexists _, _. split.
    + apply GetInstance_exhausted; [done | done | by right | done].
    + reflexivity.
Qed.

(** C6.  A call of [GetInstance] that leaves by an exception has left the
    slot empty and the guard released, has constructed and registered
    nothing, and has tried each step once: it is either the dead-instance
    exception of the standard policy, with the world untouched, or the
    exception of the allocation policy after a single request.  After a
    failed allocation the next call starts the creation again and
    completes it if storage is then available. *)
Theorem failed_access_leaves_slot_empty
    (malloc_ok : nat -> bool) (A : alloc_strategy) (D : dispose_strategy)
    (Sy : sync_strategy) (w w1 : World) (e : exn) (l : list Event) :
  GetInstance malloc_ok A D Sy w = (Throw e, w1, l) ->
  instance_ptr_ w1 = None /\
  guard_held Sy w1 = false /\
  constructed w1 = constructed w /\ live w1 = live w /\
  atexit_list w1 = atexit_list w /\
  ((e = runtime_error dead_instance_message /\
    D = StandardDisposalStrategy /\ w1 = w /\
    l = [EvGuardCtor; EvHandleDeadInstance; EvGuardDtor]) \/
   (e = bad_alloc /\
    w1 = set_next_block (S (next_block w)) (set_was_destroyed_ false w) /\
    l = [EvGuardCtor] ++
        (if was_destroyed_ w
         then [EvHandleDeadInstance; EvWasDestroyed false] else []) ++
        [EvAllocate; EvRequest None; EvGuardDtor] /\
    (malloc_ok (next_block w1) = true ->
     exists w2,
       GetInstance malloc_ok A D Sy w1 =
         (Ok (next_block w1), w2, creation_events A D w1 (next_block w1)) /\
       instance_ptr_ w2 = Some (next_block w1)))).
Proof.
  intros H.
  destruct (GetInstance_cases malloc_ok A D Sy w)
    as [(p & _ & E) | [(_ & _ & E) | [(Hs & Hg & Hf & Hd & E) |
        [(Hs & Hg & Hf & Ho & E) | (_ & _ & _ & _ & w2 & E & _)]]]];
    rewrite E in H; try discriminate.
  - injection H as <- <- <-. split_and!; try done. by left.
  - injection H as <- <- <-.
    assert (Hg' : guard_held Sy (set_next_block (S (next_block w))
                                   (set_was_destroyed_ false w)) = false).
    { unfold guard_held in *. by destruct Sy. }
    split_and!; try done.
    right. split_and!; try done. intros Ho'.
    destruct (GetInstance_creates malloc_ok A D Sy
                (set_next_block (S (next_block w))
                   (set_was_destroyed_ false w)))
      as (w2 & Hr & Hp & _); [done | done | by left | done |].
    by exists w2.
Qed.

(** C7.  Manual-memory allocation.  [Allocate] leaves by [bad_alloc]
    exactly when the request for the block fails, and by nothing else;
    when the request gives a block, the payload is constructed in that
    block and the block is what [Allocate] returns.  [Deallocate] of an
    instance runs the payload's destructor and then releases the block
    (and does nothing for a null pointer). *)
Theorem raw_memory_allocation
    (malloc_ok : nat -> bool) (w : World) (p : ptr) :
  ((exists w1 l, RawMemoryAllocationStrategy_Allocate malloc_ok w =
                   (Throw bad_alloc, w1, l)) <->
   (request_block malloc_ok w).1.1 = Ok None) /\
  match request_block malloc_ok w with
  | (Ok None, w1, l1) =>
      RawMemoryAllocationStrategy_Allocate malloc_ok w =
        (Throw bad_alloc, w1, l1)
  | (Ok (Some b), w1, l1) =>
      RawMemoryAllocationStrategy_Allocate malloc_ok w =
        (Ok b, set_heap ({[b]} ∪ live w1) (S (constructed w1)) w1,
         l1 ++ [EvConstruct b])
  | _ => False
  end /\
  RawMemoryAllocationStrategy_Deallocate (Some p) w =
    (Ok tt, set_heap (live w ∖ {[p]}) (constructed w) w,
     [EvDestruct p; EvRelease p]) /\
  RawMemoryAllocationStrategy_Deallocate None w = (Ok tt, w, []).
Proof.
  unfold RawMemoryAllocationStrategy_Allocate,
    RawMemoryAllocationStrategy_Deallocate, request_block, construct_at,
    destroy_at, release_block, emit, bind, ret, throw.
  simpl. destruct (malloc_ok (next_block w)); simpl.
  - repeat split; try done. intros (w1 & l & H). discriminate.
  - repeat split; try done. intros _. eauto.
Qed.

(** C8.  The destroy routine, run with the lock free, is: the guard's
    constructor, [Deallocate] of the allocation policy on the slot's
    content, [instance_ptr_ = nullptr], [was_destroyed_ = true], the
    guard's destructor, in this order and nothing else.  A call of
    [GetInstance] performs none of these operations of the routine; the
    routine runs when the exit sequence calls a registered function, and
    only then. *)
Theorem destroy_routine
    (malloc_ok : nat -> bool) (A : alloc_strategy) (D : dispose_strategy)
    (Sy : sync_strategy) (w : World) :
  (guard_held Sy w = false ->
   exists wa wd ld wr,
     SyncGuard_ctor Sy w = (Ok tt, wa, [EvGuardCtor]) /\
     Deallocate A (instance_ptr_ w) wa =
       (Ok tt, wd, EvDeallocate (instance_ptr_ w) :: ld) /\
     SyncGuard_dtor Sy (set_was_destroyed_ true (set_instance_ptr_ None wd)) =
       (Ok tt, wr, [EvGuardDtor]) /\
     DestroyInstance A Sy w =
       (Ok tt, wr,
        [EvGuardCtor; EvDeallocate (instance_ptr_ w)] ++ ld ++
        [EvInstancePtr None; EvWasDestroyed true; EvGuardDtor]) /\
     instance_ptr_ wr = None /\ was_destroyed_ wr = true /\
     guard_held Sy wr = false) /\
  Forall (fun e => destroy_event e = false)
         (GetInstance malloc_ok A D Sy w).2 /\
  (atexit_list w = [] -> run_exit_handler A Sy w = (Ok tt, w, [])) /\
  (forall rest, atexit_list w = DestroyInstanceFn :: rest ->
     run_exit_handler A Sy w = DestroyInstance A Sy (set_atexit_list rest w)).
Proof.
  split; [| split; [| split]].
  - intros G.
    destruct (DestroyInstance_runs A Sy w G)
      as (wa & wd & ld & wr & H1 & H2 & H3 & H4 & H5 & H6 & H7 & _).
    by exists wa, wd, ld, wr.
  - destruct (GetInstance_cases malloc_ok A D Sy w)
      as [(p & _ & E) | [(_ & _ & E) | [(_ & _ & _ & _ & E) |
          [(_ & _ & _ & _ & E) | (_ & _ & _ & _ & w2 & E & _)]]]];
      rewrite E; simpl; unfold creation_events;
      try destruct (was_destroyed_ w); try destruct A; try destruct D;
      try destruct (ptr_instance w); simpl; repeat constructor.
  - intros H. unfold run_exit_handler, bind, read, ret. by rewrite H.
  - intros rest H. unfold run_exit_handler, bind, read, modify, ret.
    rewrite H. by destruct (DestroyInstance A Sy _) as [[r w2] l2].
Qed.

(** C1.  For every choice of the three policies and every state of the
    coordinator: in a run of calls of [GetInstance] with no teardown
    between them, all the references returned are to one identity; once a
    call has returned, every later call returns the same; and at most one
    object is constructed.  A call on an occupied slot returns the slot's
    object and does nothing else.  In a run with teardowns, two calls that
    return two identities have a run of the exit handler between them.

    A call on an empty slot, with the guard free, storage available and
    no dead instance to reject, creates the instance: it takes the guard,
    calls [Allocate] once, constructs the object in the block granted,
    stores it in the slot, registers the teardown as the disposal policy
    says, releases the guard and returns the new object; the object is
    live, unless it is the very object the static [shared_ptr] of the
    reference-counted policy already held; the calls that follow return
    it and do nothing.  In every state reached from the start of the
    program the new object is live, and it is the only live one; so it is
    for the first call of the program, whose operations are listed.

    Allocations are counted by the calls of [Allocate], not only by the
    constructors run: in a run of calls, every call of [Allocate] either
    constructs an object or leaves by [bad_alloc]; at most one block is
    granted; and one call of [GetInstance] calls [Allocate] at most
    once. *)
Theorem access_returns_one_identity
    (malloc_ok : nat -> bool) (A : alloc_strategy) (D : dispose_strategy)
    (Sy : sync_strategy) (w : World) :
  (forall n i j p q,
     (run_ops malloc_ok A D Sy (replicate n CallGetInstance) w).1.1 !! i
       = Some (Ok (Some p)) ->
     (run_ops malloc_ok A D Sy (replicate n CallGetInstance) w).1.1 !! j
       = Some (Ok (Some q)) ->
     p = q) /\
  (forall n i j p,
     (run_ops malloc_ok A D Sy (replicate n CallGetInstance) w).1.1 !! i
       = Some (Ok (Some p)) ->
     i <= j < n ->
     (run_ops malloc_ok A D Sy (replicate n CallGetInstance) w).1.1 !! j
       = Some (Ok (Some p))) /\
  (forall n,
     constructed (run_ops malloc_ok A D Sy (replicate n CallGetInstance) w).1.2
       <= S (constructed w)) /\
  (forall p, instance_ptr_ w = Some p ->
     GetInstance malloc_ok A D Sy w = (Ok p, w, [])) /\
  (forall ops i j p q,
     i < j ->
     (run_ops malloc_ok A D Sy ops w).1.1 !! i = Some (Ok (Some p)) ->
     (run_ops malloc_ok A D Sy ops w).1.1 !! j = Some (Ok (Some q)) ->
     p <> q ->
     exists k, i < k < j /\ ops !! k = Some ExitHandler) /\
  (instance_ptr_ w = None -> guard_held Sy w = false ->
   was_destroyed_ w = false \/ D <> StandardDisposalStrategy ->
   malloc_ok (next_block w) = true ->
   exists w1,
     GetInstance malloc_ok A D Sy w =
       (Ok (next_block w), w1, creation_events A D w (next_block w)) /\
     count_events allocate_call (creation_events A D w (next_block w)) = 1 /\
     In (EvConstruct (next_block w))
        (creation_events A D w (next_block w)) /\
     In (EvInstancePtr (Some (next_block w)))
        (creation_events A D w (next_block w)) /\
     instance_ptr_ w1 = Some (next_block w) /\
     was_destroyed_ w1 = false /\
     guard_held Sy w1 = false /\
     constructed w1 = S (constructed w) /\
     atexit_list w1 =
       match D with
       | ImmortalStrategy => atexit_list w
       | _ => DestroyInstanceFn :: atexit_list w
       end /\
     ((A = SmartPointerAllocationStrategy ->
       ptr_instance w <> Some (next_block w)) -> next_block w ∈ live w1) /\
     forall n,
       run_ops malloc_ok A D Sy (replicate (S n) CallGetInstance) w =
         (replicate (S n) (Ok (Some (next_block w))), w1,
          creation_events A D w (next_block w))) /\
  (forall ops w0 n,
     w0 = (run_ops malloc_ok A D Sy ops initial_world).1.2 ->
     instance_ptr_ w0 = None ->
     was_destroyed_ w0 = false \/ D <> StandardDisposalStrategy ->
     malloc_ok (next_block w0) = true ->
     exists w1,
       run_ops malloc_ok A D Sy (replicate (S n) CallGetInstance) w0 =
         (replicate (S n) (Ok (Some (next_block w0))), w1,
          creation_events A D w0 (next_block w0)) /\
       instance_ptr_ w1 = Some (next_block w0) /\
       live w1 = {[next_block w0]} /\
       constructed w1 = S (constructed w0)) /\
  (malloc_ok 0 = true ->
   forall n, exists w1,
     run_ops malloc_ok A D Sy (replicate (S n) CallGetInstance) initial_world =
       (replicate (S n) (Ok (Some 0)), w1,
        [EvGuardCtor; EvAllocate; EvRequest (Some 0); EvConstruct 0;
         EvInstancePtr (Some 0); EvRegisterForCleanup] ++
        match D with
        | ImmortalStrategy => []
        | _ => [EvAtExit DestroyInstanceFn]
        end ++
        [EvGuardDtor]) /\
     instance_ptr_ w1 = Some 0 /\ live w1 = {[0]} /\ constructed w1 = 1) /\
  (forall n,
     count_events allocate_call
       (run_ops malloc_ok A D Sy (replicate n CallGetInstance) w).2
     + constructed w
     = length (List.filter failed_allocation
                 (run_ops malloc_ok A D Sy (replicate n CallGetInstance)
                    w).1.1)
       + constructed
           (run_ops malloc_ok A D Sy (replicate n CallGetInstance) w).1.2) /\
  (forall n,
     count_events storage_obtained
       (run_ops malloc_ok A D Sy (replicate n CallGetInstance) w).2 <= 1) /\
  count_events allocate_call (GetInstance malloc_ok A D Sy w).2 <= 1.
Proof.
  assert (Hchg := fun ops => run_ops_identity_change malloc_ok A D Sy ops w).
  assert (Hrep : forall n k, replicate n CallGetInstance !! k
                             <> Some ExitHandler).
  { intros n k H. apply lookup_replicate in H as [H _]. discriminate. }
  assert (Hreach : forall ops w0 n,
     w0 = (run_ops malloc_ok A D Sy ops initial_world).1.2 ->
     instance_ptr_ w0 = None ->
     was_destroyed_ w0 = false \/ D <> StandardDisposalStrategy ->
     malloc_ok (next_block w0) = true ->
     exists w1,
       run_ops malloc_ok A D Sy (replicate (S n) CallGetInstance) w0 =
         (replicate (S n) (Ok (Some (next_block w0))), w1,
          creation_events A D w0 (next_block w0)) /\
       instance_ptr_ w1 = Some (next_block w0) /\
       live w1 = {[next_block w0]} /\
       constructed w1 = S (constructed w0)).
  { intros ops w0 n -> Hs Hd Ho.
    destruct (coordinator_inv_run_ops malloc_ok A D Sy ops initial_world
                (coordinator_inv_initial A D Sy)) as (Ig & Il & Ip & _).
    set (w0 := (run_ops malloc_ok A D Sy ops initial_world).1.2) in *.
    destruct (GetInstance_creates malloc_ok A D Sy w0 Hs Ig Hd Ho)
      as (w1 & E & Hp & _ & _ & _ & _ & _ & _ & Hc & _).
    exists w1. split; [by apply run_ops_creates |].
    split; [exact Hp |]. split; [| exact Hc].
    assert (Hl := GetInstance_creates_live malloc_ok A D Sy w0 Hs Ig Hd Ho).
    rewrite E in Hl. simpl in Hl. rewrite Hl.
    - rewrite Il, Hs. unfold slot_set. apply union_empty_r_L.
    - intros ->. by rewrite Ip. }
  split_and!.
  - intros n i j p q Hi Hj.
    destruct (decide (p = q)) as [|Hne]; [done | exfalso].
    destruct (Nat.lt_total i j) as [Hlt | [-> | Hlt]].
    + destruct (Hchg _ i j p q Hlt Hi Hj Hne) as (k & _ & Hk).
      by apply Hrep in Hk.
    + congruence.
    + destruct (Hchg _ j i q p Hlt Hj Hi) as (k & _ & Hk); [congruence |].
      by apply Hrep in Hk.
  - intros n i j p. apply run_ops_calls_later.
  - intros n. apply run_ops_calls_construct_once.
  - intros p. apply GetInstance_occupied.
  - intros ops. apply Hchg.
  - intros Hs Hg Hd Ho.
    destruct (GetInstance_creates malloc_ok A D Sy w Hs Hg Hd Ho)
      as (w1 & E & Hp & Hf & Hm & Hk & _ & Ha & _ & Hc & Hl & _).
    exists w1. split_and!; try done.
    + apply creation_events_allocate_once.
    + unfold creation_events.
      destruct (was_destroyed_ w); simpl; tauto.
    + unfold creation_events.
      destruct (was_destroyed_ w), A, (ptr_instance w); simpl; tauto.
    + unfold guard_held in *. by rewrite Hm, Hk.
    + intros n. by apply run_ops_creates.
  - exact Hreach.
  - intros O n.
    destruct (Hreach [] initial_world n eq_refl eq_refl (or_introl eq_refl) O)
      as (w1 & E & H).
    exists w1. split; [| exact H].
    rewrite E. simpl next_block. by rewrite creation_events_initial.
  - intros n. apply run_ops_calls_allocations.
  - intros n.
    pose proof (proj2 (run_ops_calls_allocations malloc_ok A D Sy n w)).
    pose proof (run_ops_calls_construct_once malloc_ok A D Sy n w).
    lia.
  - apply GetInstance_allocates_at_most_once.
Qed.

(** C5.  Immortal disposal: [RegisterForCleanup] changes nothing, and in
    every run from the start of the program, whatever the number of calls
    of [GetInstance] and of runs of the exit sequence, no function is
    registered with [std::atexit], the flag stays down, and no operation
    of a teardown is performed: no registration, no [Deallocate], no
    destructor of the payload, no reset of the slot, no raising of the
    flag. *)
Theorem immortal_never_torn_down
    (malloc_ok : nat -> bool) (A : alloc_strategy) (Sy : sync_strategy)
    (ops : list Op) :
  (forall f w, RegisterForCleanup ImmortalStrategy f w
               = (Ok tt, w, [EvRegisterForCleanup])) /\
  atexit_list
    (run_ops malloc_ok A ImmortalStrategy Sy ops initial_world).1.2 = [] /\
  was_destroyed_
    (run_ops malloc_ok A ImmortalStrategy Sy ops initial_world).1.2 = false /\
  Forall (fun e => teardown_event e = false)
    (run_ops malloc_ok A ImmortalStrategy Sy ops initial_world).2.
Proof.
  split; [done |].
  destruct (immortal_run_ops malloc_ok A Sy ops initial_world)
    as [(H1 & H2 & _) H3]; [by split_and! |].
  by split_and!.
Qed.

(** C10.  Standard disposal: the handler throws before
    [was_destroyed_ = false] is reached, so the flag stays up.  Whatever
    is done after the teardown, every call of [GetInstance] leaves by the
    dead-instance exception, the slot stays empty, the flag stays up, and
    no storage is requested and no object constructed again. *)
Theorem standard_dead_forever
    (malloc_ok : nat -> bool) (A : alloc_strategy) (Sy : sync_strategy)
    (w w1 : World) (l1 : list Event) (ops : list Op) :
  DestroyInstance A Sy w = (Ok tt, w1, l1) ->
  (run_ops malloc_ok A StandardDisposalStrategy Sy ops w1).1.1
    = map after_teardown_result ops /\
  was_destroyed_
    (run_ops malloc_ok A StandardDisposalStrategy Sy ops w1).1.2 = true /\
  instance_ptr_
    (run_ops malloc_ok A StandardDisposalStrategy Sy ops w1).1.2 = None /\
  next_block (run_ops malloc_ok A StandardDisposalStrategy Sy ops w1).1.2
    = next_block w1 /\
  constructed (run_ops malloc_ok A StandardDisposalStrategy Sy ops w1).1.2
    = constructed w1.
Proof.
  intros H. apply DestroyInstance_done in H as (_ & Hs & Hf & Hg & _).
  assert (Ht : torn_down Sy w1) by done. clear Hs Hf Hg.
  revert w1 Ht. induction ops as [|o ops IH]; intros w1 Ht.
  { destruct Ht as (Hs & Hf & _). by split_and!. }
  destruct (standard_torn_down_run_op malloc_ok A Sy o w1 Ht)
    as (w2 & l2 & E & Ht2 & Hn & Hc).
  simpl. rewrite E. destruct (IH w2 Ht2) as (I1 & I2 & I3 & I4 & I5).
  destruct (run_ops malloc_ok A StandardDisposalStrategy Sy ops w2)
    as [[rs w3] l3].
  destruct o; simpl in *; split_and!; congruence.
Qed.

(** ** Threads *)

Section Threads.

Context (malloc_ok : nat -> bool) (AllocStrat : alloc_strategy)
        (DisposeStrat : dispose_strategy) (SyncStrat : sync_strategy).

Local Abbreviation GetInstance :=
  (GetInstance malloc_ok AllocStrat DisposeStrat SyncStrat).
Local Abbreviation thread_step :=
  (thread_step malloc_ok AllocStrat DisposeStrat SyncStrat).
Local Abbreviation run_alone :=
  (run_alone malloc_ok AllocStrat DisposeStrat SyncStrat).
Local Abbreviation pool_step :=
  (pool_step malloc_ok AllocStrat DisposeStrat SyncStrat).
Local Abbreviation schedule :=
  (schedule malloc_ok AllocStrat DisposeStrat SyncStrat).
Local Abbreviation guard_held := (guard_held SyncStrat).
Local Abbreviation pool_inv := (pool_inv SyncStrat).

Ltac step_cases H :=
  unfold_thread_step; unfold_cxx; unfold_guard;
  repeat (simpl in *; case_match); simplify_eq/=.

(** Every step brings a thread nearer to its end. *)
Lemma thread_step_decreases c w c1 w1 l :
  thread_step c w = Some (c1, w1, l) -> steps_left c1 < steps_left c.
Proof.
  intros H. destruct c; step_cases H; lia.
Qed.

(** *** A thread alone is a call *)

Lemma run_alone_unfold n c w l :
  run_alone (S n) c w l =
    match c with
    | Finished r => (r, w, l)
    | _ =>
        match thread_step c w with
        | None => (Hang, w, l)
        | Some (c1, w1, l1) => run_alone n c1 w1 (l ++ l1)
        end
    end.
Proof. destruct c; reflexivity. Qed.

Lemma SyncGuard_ctor_outcome w :
  SyncGuard_ctor SyncStrat w = (Hang, w, []) \/
  exists w1, SyncGuard_ctor SyncStrat w = (Ok tt, w1, [EvGuardCtor]).
Proof.
  unfold_cxx. destruct SyncStrat; simpl; eauto.
  - destruct (mutex_ w); eauto.
  - destruct (lock_flag_ w); eauto.
Qed.

Lemma HandleDeadInstance_outcome w :
  (exists w1 l, HandleDeadInstance DisposeStrat w = (Ok tt, w1, l)) \/
  (exists e w1 l, HandleDeadInstance DisposeStrat w = (Throw e, w1, l)).
Proof. unfold_cxx. destruct DisposeStrat; simpl; eauto. Qed.

Lemma Allocate_outcome w :
  (exists p w1 l, Allocate malloc_ok AllocStrat w = (Ok p, w1, l)) \/
  (exists e w1 l, Allocate malloc_ok AllocStrat w = (Throw e, w1, l)).
Proof.
  unfold_cxx. destruct AllocStrat; simpl;
    destruct (malloc_ok (next_block w)); simpl; eauto;
    destruct (ptr_instance w); simpl; eauto.
Qed.

Lemma RegisterForCleanup_outcome f w :
  exists w1 l, RegisterForCleanup DisposeStrat f w = (Ok tt, w1, l).
Proof. unfold_cxx. destruct DisposeStrat; simpl; eauto. Qed.

(** A thread left alone goes through [GetInstance]: same outcome, same
    world, same operations. *)
Lemma run_alone_GetInstance w :
  run_alone 11 AtFastCheck w [] = GetInstance w.
Proof.
  unfold_GetInstance.
  repeat
    (repeat (rewrite run_alone_unfold; simpl);
     unfold deref_instance_ptr_, write_instance_ptr_, write_was_destroyed_,
       bind, ret, read, emit, modify, undefined; simpl;
     try match goal with
     | |- context [SyncGuard_ctor ?s ?w] =>
         destruct (SyncGuard_ctor_outcome w) as [-> | [? ->]]
     | |- context [HandleDeadInstance ?d ?w] =>
         destruct (HandleDeadInstance_outcome w)
           as [(? & ? & ->) | (? & ? & ? & ->)]
     | |- context [Allocate ?m ?a ?w] =>
         destruct (Allocate_outcome w) as [(? & ? & ? & ->) | (? & ? & ? & ->)]
     | |- context [RegisterForCleanup ?d ?f ?w] =>
         destruct (RegisterForCleanup_outcome f w) as (? & ? & ->)
     | |- context [SyncGuard_dtor ?s ?w] =>
         destruct (SyncGuard_dtor s w) as [[? ?] ?]
     | |- context [match instance_ptr_ ?w with _ => _ end] =>
         destruct (instance_ptr_ w) eqn:?
     | |- context [if was_destroyed_ ?w then _ else _] =>
         destruct (was_destroyed_ w) eqn:?
     end).
  all: simpl; rewrite <- ?app_assoc; first [reflexivity | congruence].
Qed.

(** Only the assignment of [GetInstance] changes the slot. *)
Lemma thread_step_slot c w c1 w1 l :
  thread_step c w = Some (c1, w1, l) ->
  instance_ptr_ w1 = match c with AtStore p => Some p | _ => instance_ptr_ w end.
Proof.
  intros H. destruct c; step_cases H; done.
Qed.

(** An object is constructed exactly by the step that leads to the
    assignment. *)
Lemma thread_step_constructed c w c1 w1 l :
  thread_step c w = Some (c1, w1, l) ->
  constructed w1 = constructed w + (if at_store c1 then 1 else 0) /\
  (at_store c = true -> at_store c1 = false).
Proof.
  intros H. destruct c; step_cases H; split; try done; lia.
Qed.

(** The lock follows the guard: taken by the step that enters, which
    finds it free, and freed by the step that leaves. *)
Lemma thread_step_guard c w c1 w1 l :
  exclusive SyncStrat ->
  thread_step c w = Some (c1, w1, l) ->
  (in_guard c = in_guard c1 -> guard_held w1 = guard_held w) /\
  (in_guard c = false -> in_guard c1 = true ->
   guard_held w = false /\ guard_held w1 = true) /\
  (in_guard c = true -> in_guard c1 = false -> guard_held w1 = false).
Proof.
  intros X H. destruct c; step_cases H; destruct X; simplify_eq/=;
    split_and!; done.
Qed.

(** A thread stays right about the slot through its own steps. *)
Lemma thread_step_slot_ok c w c1 w1 l :
  thread_step c w = Some (c1, w1, l) ->
  slot_ok (instance_ptr_ w) c -> slot_ok (instance_ptr_ w1) c1.
Proof.
  intros H. destruct c; step_cases H; simpl; try done; congruence.
Qed.

(** With storage available and the flag down, no step leads to the
    handler or to an exception. *)
Lemma thread_step_calm c w c1 w1 l :
  (forall k, malloc_ok k = true) ->
  thread_step c w = Some (c1, w1, l) ->
  was_destroyed_ w = false -> calm c ->
  was_destroyed_ w1 = false /\ calm c1.
Proof.
  intros O H. destruct c; step_cases H; simpl; try done;
    intros; try done; rewrite O in *; done.
Qed.

(** A thread inside the guard can always move; so can any unfinished
    thread when the lock is free. *)
Lemma thread_step_enabled c w :
  finished c = false ->
  in_guard c = true \/ guard_held w = false ->
  is_Some (thread_step c w).
Proof.
  intros F G. unfold_thread_step. unfold_cxx.
  unfold_guard.
  destruct c; simpl in *; try done; repeat (simpl; case_match);
    simplify_eq/=; try done; destruct G; simplify_eq/=.
Qed.

(** *** Counting over the pool *)

Lemma total_insert g (cs : list pc) t c c1 :
  cs !! t = Some c ->
  total g (<[t := c1]> cs) + g c = total g cs + g c1.
Proof.
  revert t. induction cs as [|x cs IH]; intros t H; [done |].
  destruct t as [|t]; simpl in *.
  - injection H as ->. lia.
  - specialize (IH t H). lia.
Qed.

Lemma count_pcs_insert f (cs : list pc) t c c1 :
  cs !! t = Some c ->
  count_pcs f (<[t := c1]> cs) + (if f c then 1 else 0)
    = count_pcs f cs + (if f c1 then 1 else 0).
Proof. apply total_insert. Qed.

Lemma count_pcs_lookup f (cs : list pc) t c :
  cs !! t = Some c -> f c = true -> 1 <= count_pcs f cs.
Proof.
  revert t. induction cs as [|x cs IH]; intros t H F; [done |].
  unfold count_pcs in *. destruct t as [|t]; simpl in *.
  - injection H as ->. rewrite F. lia.
  - specialize (IH t H F). lia.
Qed.

(** Where at most one thread satisfies [f], two that do are one. *)
Lemma count_pcs_unique f (cs : list pc) : forall i j x y,
  count_pcs f cs <= 1 ->
  cs !! i = Some x -> cs !! j = Some y -> f x = true -> f y = true -> i = j.
Proof.
  induction cs as [|c cs IH]; intros i j x y Hc Hi Hj Fx Fy; [done |].
  unfold count_pcs in *. simpl in Hc.
  destruct i as [|i], j as [|j]; simpl in *; try done.
  - injection Hi as ->. rewrite Fx in Hc.
    pose proof (count_pcs_lookup f cs j y Hj Fy). unfold count_pcs in *. lia.
  - injection Hj as ->. rewrite Fy in Hc.
    pose proof (count_pcs_lookup f cs i x Hi Fx). unfold count_pcs in *. lia.
  - f_equal. apply (IH i j x y); try done. destruct (f c); lia.
Qed.

Lemma count_pcs_zero f (cs : list pc) :
  count_pcs f cs = 0 <-> Forall (fun c => f c = false) cs.
Proof.
  unfold count_pcs. induction cs as [|c cs IH]; simpl.
  - split; [constructor | done].
  - rewrite Forall_cons, <- IH.
    destruct (f c); simpl; intuition (try discriminate; lia).
Qed.

(** *** The invariant is kept *)

Lemma pool_step_inv c0 t P P1 :
  exclusive SyncStrat ->
  pool_step t P = Some P1 -> pool_inv c0 P -> pool_inv c0 P1.
Proof.
  intros X H (Ig & Ic & Is). unfold_pool.
  destruct (threads P !! t) as [c|] eqn:Ht; [| done].
  destruct (thread_step c (shared P)) as [[[c1 w1] l1]|] eqn:Hs; [| done].
  injection H as <-. unfold_pool. cbn [threads shared trace].
  pose proof (thread_step_slot _ _ _ _ _ Hs) as Hslot.
  pose proof (thread_step_constructed _ _ _ _ _ Hs) as [Hcon Hst].
  pose proof (thread_step_guard _ _ _ _ _ X Hs) as (G1 & G2 & G3).
  pose proof (count_pcs_insert in_guard _ t c c1 Ht) as Cg.
  pose proof (count_pcs_insert at_store _ t c c1 Ht) as Cs.
  pose proof (count_pcs_lookup in_guard _ t c Ht) as Lg.
  pose proof (count_pcs_lookup at_store _ t c Ht) as Ls.
  assert (Hc : slot_ok (instance_ptr_ (shared P)) c).
  { rewrite Forall_lookup in Is. by apply (Is t). }
  split_and!.
  - destruct (in_guard c) eqn:Ec, (in_guard c1) eqn:Ec1.
    + rewrite G1 by done. destruct (guard_held (shared P)); lia.
    + rewrite G3 by done. specialize (Lg eq_refl).
      destruct (guard_held (shared P)); lia.
    + destruct G2 as [G2 G2']; [done | done |]. rewrite G2 in Ig.
      rewrite G2'. lia.
    + rewrite G1 by done. destruct (guard_held (shared P)); lia.
  - rewrite Hcon, Ic, Hslot.
    destruct (at_store c) eqn:Ec.
    + rewrite (Hst eq_refl) in *. destruct c; try done. simpl in Hc.
      rewrite Hc. lia.
    + destruct c; try done; destruct (at_store c1); lia.
  - apply Forall_lookup. intros i x Hi.
    destruct (decide (i = t)) as [-> | Hne].
    + rewrite list_lookup_insert_eq in Hi by (by eapply lookup_lt_Some).
      injection Hi as <-. by eapply thread_step_slot_ok.
    + rewrite list_lookup_insert_ne in Hi by done.
      assert (Hx : slot_ok (instance_ptr_ (shared P)) x).
      { rewrite Forall_lookup in Is. by apply (Is i). }
      rewrite Hslot. destruct (at_store c) eqn:Ec.
      * destruct c; try done. simpl in Hc.
        assert (Gx : in_guard x = false).
        { destruct (in_guard x) eqn:Ex; [| done]. exfalso. apply Hne.
          apply (count_pcs_unique in_guard (threads P) i t x (AtStore p));
            try done.
          rewrite Ig. destruct (guard_held (shared P)); lia. }
        rewrite Hc in Hx.
        destruct x as [| | | | | | | | |u| |r]; try done.
        destruct r; done.
      * destruct c; done.
Qed.

Lemma pool_step_calm t P P1 :
  (forall k, malloc_ok k = true) ->
  pool_step t P = Some P1 -> pool_calm P -> pool_calm P1.
Proof.
  intros O H [Hf Hc]. unfold_pool.
  destruct (threads P !! t) as [c|] eqn:Ht; [| done].
  destruct (thread_step c (shared P)) as [[[c1 w1] l1]|] eqn:Hs; [| done].
  injection H as <-. unfold pool_calm. simpl.
  assert (Hcc : calm c). { rewrite Forall_lookup in Hc. by apply (Hc t). }
  destruct (thread_step_calm _ _ _ _ _ O Hs Hf Hcc) as [Hf1 Hc1].
  split; [done |]. by apply Forall_insert.
Qed.

Lemma pool_step_length t P P1 :
  pool_step t P = Some P1 -> length (threads P1) = length (threads P).
Proof.
  intros H. unfold_pool.
  destruct (threads P !! t) as [c|]; [| done].
  destruct (thread_step c (shared P)) as [[[c1 w1] l1]|]; [| done].
  injection H as <-. simpl. apply length_insert.
Qed.

Lemma pool_step_decreases t P P1 :
  pool_step t P = Some P1 ->
  total steps_left (threads P1) < total steps_left (threads P).
Proof.
  intros H. unfold_pool.
  destruct (threads P !! t) as [c|] eqn:Ht; [| done].
  destruct (thread_step c (shared P)) as [[[c1 w1] l1]|] eqn:Hs; [| done].
  injection H as <-. simpl.
  pose proof (total_insert steps_left _ t c c1 Ht).
  pose proof (thread_step_decreases _ _ _ _ _ Hs). lia.
Qed.

Lemma schedule_inv c0 sched : forall P,
  exclusive SyncStrat -> pool_inv c0 P -> pool_inv c0 (schedule sched P).
Proof.
  induction sched as [|t sched IH]; intros P X I; [done |].
  simpl. destruct (pool_step t P) as [P1|] eqn:E; apply IH; try done.
  by eapply pool_step_inv.
Qed.

Lemma schedule_calm sched : forall P,
  (forall k, malloc_ok k = true) -> pool_calm P -> pool_calm (schedule sched P).
Proof.
  induction sched as [|t sched IH]; intros P O I; [done |].
  simpl. destruct (pool_step t P) as [P1|] eqn:E; apply IH; try done.
  by eapply pool_step_calm.
Qed.

Lemma schedule_length sched : forall P,
  length (threads (schedule sched P)) = length (threads P).
Proof.
  induction sched as [|t sched IH]; intros P; [done |].
  simpl. destruct (pool_step t P) as [P1|] eqn:E; rewrite IH; [| done].
  by eapply pool_step_length.
Qed.

Lemma schedule_app s1 s2 P :
  schedule (s1 ++ s2) P = schedule s2 (schedule s1 P).
Proof.
  revert P. induction s1 as [|t s1 IH]; intros P; [done |]. simpl. apply IH.
Qed.

(** Threads that are all about to call, with the slot empty and the lock
    free, satisfy the invariant. *)
Lemma spawn_inv n w :
  instance_ptr_ w = None -> guard_held w = false ->
  pool_inv (constructed w) (spawn n w).
Proof.
  intros Hs Hg. unfold_pool. cbn [threads shared].
  rewrite Hs, Hg.
  assert (Z : forall f, f AtFastCheck = false ->
                        count_pcs f (replicate n AtFastCheck) = 0).
  { intros f Hf. apply count_pcs_zero, Forall_replicate. done. }
  rewrite !Z by done. split_and!; [done | lia |].
  by apply Forall_replicate.
Qed.

Lemma spawn_calm n w : was_destroyed_ w = false -> pool_calm (spawn n w).
Proof. intros H. split; [done |]. by apply Forall_replicate. Qed.

(** *** No deadlock, and an end *)

Lemma count_pcs_pos f (cs : list pc) :
  1 <= count_pcs f cs -> exists t c, cs !! t = Some c /\ f c = true.
Proof.
  unfold count_pcs. induction cs as [|x cs IH]; simpl; [lia |].
  intros H. destruct (f x) eqn:Fx.
  - by exists 0, x.
  - destruct IH as (t & c & Ht & Fc); [lia |]. by exists (S t), c.
Qed.

Lemma unfinished_thread (cs : list pc) :
  forallb finished cs = false ->
  exists t c, cs !! t = Some c /\ finished c = false.
Proof.
  induction cs as [|x cs IH]; simpl; [done |].
  destruct (finished x) eqn:Fx; simpl.
  - intros H. destruct (IH H) as (t & c & Ht & Fc). by exists (S t), c.
  - intros _. by exists 0, x.
Qed.

(** Some thread can move as long as one has not finished. *)
Lemma pool_progress c0 P :
  exclusive SyncStrat -> pool_inv c0 P -> all_finished P = false ->
  exists t P1, pool_step t P = Some P1.
Proof.
  intros X (Ig & _ & _) F.
  assert (exists t c, threads P !! t = Some c /\ finished c = false /\
                      (in_guard c = true \/ guard_held (shared P) = false))
    as (t & c & Ht & Fc & G).
  { destruct (guard_held (shared P)) eqn:Hg.
    - destruct (count_pcs_pos in_guard (threads P)) as (t & c & Ht & Gc);
        [lia |].
      exists t, c. split_and!; [done | by destruct c | by left].
    - destruct (unfinished_thread _ F) as (t & c & Ht & Fc).
      exists t, c. split_and!; [done | done | by right]. }
  destruct (thread_step_enabled c (shared P) Fc G) as [[[c1 w1] l1] Hs].
  exists t. unfold_pool. rewrite Ht, Hs. eauto.
Qed.

(** Every pool can be scheduled to its end. *)
Lemma pool_terminates c0 n : forall P,
  exclusive SyncStrat -> pool_inv c0 P ->
  total steps_left (threads P) <= n ->
  exists sched, all_finished (schedule sched P) = true.
Proof.
  induction n as [|n IH]; intros P X I Hn.
  - destruct (all_finished P) eqn:F; [by exists [] |].
    destruct (pool_progress c0 P X I F) as (t & P1 & Hs).
    apply pool_step_decreases in Hs. lia.
  - destruct (all_finished P) eqn:F; [by exists [] |].
    destruct (pool_progress c0 P X I F) as (t & P1 & Hs).
    destruct (IH P1) as [sched Hsched]; [done | by eapply pool_step_inv | |].
    { apply pool_step_decreases in Hs. lia. }
    exists (t :: sched). simpl. by rewrite Hs.
Qed.

(** *** The end *)

(** When all threads have finished without an exception, they all hold
    the object of the slot, and it is the only one constructed. *)
Lemma pool_finished_results c0 P :
  pool_inv c0 P -> pool_calm P -> all_finished P = true ->
  0 < length (threads P) ->
  exists p,
    threads P = replicate (length (threads P)) (Finished (Ok p)) /\
    instance_ptr_ (shared P) = Some p /\
    constructed (shared P) = c0 + 1.
Proof.
  intros (_ & Ic & Is) (_ & Hc) F L.
  unfold all_finished in F.
  apply Is_true_true, forallb_True in F. rewrite Forall_lookup in F.
  rewrite Forall_lookup in Is, Hc.
  assert (Hall : forall t c, threads P !! t = Some c ->
            exists q, c = Finished (Ok q) /\
                      instance_ptr_ (shared P) = Some q).
  { intros t c Ht. specialize (F t c Ht). specialize (Is t c Ht).
    specialize (Hc t c Ht).
    destruct c as [| | | | | | | | | | |r]; try done.
    destruct r as [q|e| |]; try done. by exists q. }
  destruct (threads P) as [|c cs] eqn:E; [simpl in L; lia |].
  destruct (Hall 0 c eq_refl) as (p & -> & Hp).
  exists p. split_and!; [| done |].
  - symmetry. apply replicate_as_Forall. split; [done |].
    apply Forall_lookup. intros t c Ht.
    destruct (Hall t c Ht) as (q & -> & Hq). congruence.
  - rewrite Ic, Hp.
    assert (count_pcs at_store (Finished (Ok p) :: cs) = 0) as ->; [| lia].
    apply count_pcs_zero, Forall_lookup. intros t c Ht.
    by destruct (Hall t c Ht) as (q & -> & _).
Qed.

End Threads.

(** ** The claims about threads *)

(** C9.  Mutex or spin lock, storage available: eight threads that each
    call [GetInstance] once, whatever the order in which the scheduler
    lets them step, can always be run to the end, and at the end all
    eight hold the same object, which is the one in the slot and the only
    one constructed.  The step program of a thread is [GetInstance]. *)
Theorem guarded_first_access_race
    (malloc_ok : nat -> bool) (A : alloc_strategy) (D : dispose_strategy)
    (Sy : sync_strategy) (sched : list tid) :
  Sy = MutexSynchronizationStrategy \/ Sy = AtomicSynchronizationStrategy ->
  (forall k, malloc_ok k = true) ->
  (forall w, run_alone malloc_ok A D Sy 11 AtFastCheck w []
             = GetInstance malloc_ok A D Sy w) /\
  (exists more,
     all_finished
       (schedule malloc_ok A D Sy (sched ++ more) (spawn 8 initial_world))
     = true) /\
  (all_finished (schedule malloc_ok A D Sy sched (spawn 8 initial_world))
   = true ->
   exists p,
     threads (schedule malloc_ok A D Sy sched (spawn 8 initial_world))
       = replicate 8 (Finished (Ok p)) /\
     instance_ptr_
       (shared (schedule malloc_ok A D Sy sched (spawn 8 initial_world)))
       = Some p /\
     constructed
       (shared (schedule malloc_ok A D Sy sched (spawn 8 initial_world)))
       = 1).
Proof.
  intros X O.
  assert (I0 : pool_inv Sy 0 (spawn 8 initial_world)).
  { apply (spawn_inv Sy 8 initial_world); [done | by destruct Sy]. }
  assert (C0 : pool_calm (spawn 8 initial_world)) by by apply spawn_calm.
  pose proof (schedule_inv malloc_ok A D Sy 0 sched _ X I0) as I.
  pose proof (schedule_calm malloc_ok A D Sy sched _ O C0) as C.
  pose proof (schedule_length malloc_ok A D Sy sched (spawn 8 initial_world))
    as L.
  split_and!.
  - apply run_alone_GetInstance.
  - destruct (pool_terminates malloc_ok A D Sy 0 _ _ X I (le_n _))
      as [more Hm].
    exists more. by rewrite schedule_app.
  - intros F.
    destruct (pool_finished_results Sy 0 _ I C F) as (p & Hp & Hs & Hc).
    { rewrite L. simpl. lia. }
    exists p. rewrite L in Hp. by split_and!.
Qed.

(** C2.  The per-thread policy in the coordinator of the demo
    ([ThreadLogger]) and in any other: thread 0 calls [GetInstance] to
    the end, then thread 1 does.  Both get the same object, one object
    has been constructed, and the per-thread variable of
    [GetThreadLocalInstance] has never been touched: the slot and the
    flag are the process-wide variables of every other policy.  The
    function [GetThreadLocalInstance], which the coordinator never calls,
    is the one that gives two threads two objects. *)
Theorem thread_local_strategy_shares_instance
    (A : alloc_strategy) (D : dispose_strategy) :
  threads (schedule always_ok A D ThreadLocalStrategy
             (replicate 11 0 ++ replicate 11 1) (spawn 2 initial_world))
    = [Finished (Ok 0); Finished (Ok 0)] /\
  constructed
    (shared (schedule always_ok A D ThreadLocalStrategy
               (replicate 11 0 ++ replicate 11 1) (spawn 2 initial_world)))
    = 1 /\
  local_instance
    (shared (schedule always_ok A D ThreadLocalStrategy
               (replicate 11 0 ++ replicate 11 1) (spawn 2 initial_world)))
    = ∅ /\
  (forall w, run_alone always_ok A D ThreadLocalStrategy 11 AtFastCheck w []
             = GetInstance always_ok A D ThreadLocalStrategy w) /\
  (GetThreadLocalInstance always_ok 0 initial_world).1.1 = Ok 0 /\
  (GetThreadLocalInstance always_ok 1
     (GetThreadLocalInstance always_ok 0 initial_world).1.2).1.1 = Ok 1.
Proof.
  split_and!; [| | | apply run_alone_GetInstance | |];
    destruct A, D; vm_compute; reflexivity.
Qed.

(** ** The theorems at work on the coordinators of the tests *)

Lemma demo_teardown :
  DestroyInstance NewAllocationStrategy MutexSynchronizationStrategy
    demo_created
  = (Ok tt, demo_torn_down,
     [EvGuardCtor; EvDeallocate (Some 0); EvDestruct 0; EvRelease 0;
      EvInstancePtr None; EvWasDestroyed true; EvGuardDtor]).
Proof. vm_compute. reflexivity. Defined.

Lemma standard_rejects_dead_instance_witness :
  DestroyInstance NewAllocationStrategy MutexSynchronizationStrategy
    demo_created
  = (Ok tt, demo_torn_down,
     [EvGuardCtor; EvDeallocate (Some 0); EvDestruct 0; EvRelease 0;
      EvInstancePtr None; EvWasDestroyed true; EvGuardDtor]) /\
  GetInstance always_ok NewAllocationStrategy StandardDisposalStrategy
    MutexSynchronizationStrategy demo_torn_down
  = (Throw (runtime_error dead_instance_message), demo_torn_down,
     [EvGuardCtor; EvHandleDeadInstance; EvGuardDtor]).
Proof.
  split; [exact demo_teardown |].
  exact (standard_rejects_dead_instance always_ok NewAllocationStrategy
           MutexSynchronizationStrategy demo_created demo_torn_down _
           demo_teardown).
Defined.

Lemma resurrection_recreates_witness :
  DestroyInstance NewAllocationStrategy MutexSynchronizationStrategy
    demo_created
  = (Ok tt, demo_torn_down,
     [EvGuardCtor; EvDeallocate (Some 0); EvDestruct 0; EvRelease 0;
      EvInstancePtr None; EvWasDestroyed true; EvGuardDtor]) /\
  always_ok (next_block demo_torn_down) = true /\
  exists w2,
    (GetInstance always_ok NewAllocationStrategy ResurrectionStrategy
       MutexSynchronizationStrategy demo_torn_down).1
    = (Ok (next_block demo_torn_down), w2) /\
    instance_ptr_ w2 = Some (next_block demo_torn_down) /\
    was_destroyed_ w2 = false.
Proof.
  split; [exact demo_teardown |]. split; [reflexivity |].
  destruct (resurrection_recreates always_ok NewAllocationStrategy
              MutexSynchronizationStrategy demo_created demo_torn_down _
              demo_teardown) as (_ & H & _).
  destruct (H eq_refl) as (w2 & E & Hp & Hf & _).
  exists w2. rewrite E. split; [reflexivity |]. split; assumption.
Defined.

Lemma failed_access_leaves_slot_empty_witness :
  GetInstance never_ok RawMemoryAllocationStrategy StandardDisposalStrategy
    MutexSynchronizationStrategy initial_world
  = (Throw bad_alloc, set_next_block 1 initial_world,
     [EvGuardCtor; EvAllocate; EvRequest None; EvGuardDtor]) /\
  instance_ptr_ (set_next_block 1 initial_world) = None /\
  guard_held MutexSynchronizationStrategy (set_next_block 1 initial_world)
  = false.
Proof.
  assert (H : GetInstance never_ok RawMemoryAllocationStrategy
                StandardDisposalStrategy MutexSynchronizationStrategy
                initial_world
              = (Throw bad_alloc, set_next_block 1 initial_world,
                 [EvGuardCtor; EvAllocate; EvRequest None; EvGuardDtor])).
  { vm_compute. reflexivity. }
  split; [exact H |].
  destruct (failed_access_leaves_slot_empty never_ok
              RawMemoryAllocationStrategy StandardDisposalStrategy
              MutexSynchronizationStrategy initial_world _ _ _ H)
    as (Hs & Hg & _).
  split; assumption.
Defined.

Lemma destroy_routine_witness :
  guard_held MutexSynchronizationStrategy demo_created = false /\
  exists wr ld,
    DestroyInstance NewAllocationStrategy MutexSynchronizationStrategy
      demo_created
    = (Ok tt, wr,
       [EvGuardCtor; EvDeallocate (instance_ptr_ demo_created)] ++ ld ++
       [EvInstancePtr None; EvWasDestroyed true; EvGuardDtor]) /\
    instance_ptr_ wr = None /\ was_destroyed_ wr = true.
Proof.
  assert (G : guard_held MutexSynchronizationStrategy demo_created = false).
  { vm_compute. reflexivity. }
  split; [exact G |].
  destruct (destroy_routine always_ok NewAllocationStrategy
              StandardDisposalStrategy MutexSynchronizationStrategy
              demo_created) as (H & _).
  destruct (H G) as (wa & wd & ld & wr & _ & _ & _ & E & Hs & Hf & _).
  exists wr, ld. split; [exact E |]. split; assumption.
Defined.

Lemma access_returns_one_identity_witness :
  (run_ops always_ok NewAllocationStrategy StandardDisposalStrategy
     MutexSynchronizationStrategy (replicate 3 CallGetInstance)
     initial_world).1.1 !! 0 = Some (Ok (Some 0)) /\
  0 <= 2 < 3 /\
  (run_ops always_ok NewAllocationStrategy StandardDisposalStrategy
     MutexSynchronizationStrategy (replicate 3 CallGetInstance)
     initial_world).1.1 !! 2 = Some (Ok (Some 0)) /\
  always_ok 0 = true /\
  exists w1,
    run_ops always_ok NewAllocationStrategy StandardDisposalStrategy
      MutexSynchronizationStrategy (replicate 3 CallGetInstance)
      initial_world =
      ([Ok (Some 0); Ok (Some 0); Ok (Some 0)], w1,
       [EvGuardCtor; EvAllocate; EvRequest (Some 0); EvConstruct 0;
        EvInstancePtr (Some 0); EvRegisterForCleanup;
        EvAtExit DestroyInstanceFn; EvGuardDtor]) /\
    instance_ptr_ w1 = Some 0 /\ live w1 = {[0]} /\ constructed w1 = 1.
Proof.
  assert (H : (run_ops always_ok NewAllocationStrategy
                 StandardDisposalStrategy MutexSynchronizationStrategy
                 (replicate 3 CallGetInstance) initial_world).1.1 !! 0
              = Some (Ok (Some 0))).
  { vm_compute. reflexivity. }
  assert (B : 0 <= 2 < 3) by lia.
  assert (O : always_ok 0 = true) by reflexivity.
  split; [exact H |]. split; [exact B |].
  destruct (access_returns_one_identity always_ok NewAllocationStrategy
              StandardDisposalStrategy MutexSynchronizationStrategy
              initial_world) as (_ & L & _ & _ & _ & _ & _ & F & _).
  split; [exact (L 3 0 2 0 H B) |]. split; [exact O |].
  exact (F O 2).
Defined.

Lemma standard_dead_forever_witness :
  DestroyInstance NewAllocationStrategy MutexSynchronizationStrategy
    demo_created
  = (Ok tt, demo_torn_down,
     [EvGuardCtor; EvDeallocate (Some 0); EvDestruct 0; EvRelease 0;
      EvInstancePtr None; EvWasDestroyed true; EvGuardDtor]) /\
  (run_ops always_ok NewAllocationStrategy StandardDisposalStrategy
     MutexSynchronizationStrategy
     [CallGetInstance; ExitHandler; CallGetInstance] demo_torn_down).1.1
  = [Throw (runtime_error dead_instance_message); Ok None;
     Throw (runtime_error dead_instance_message)] /\
  constructed
    (run_ops always_ok NewAllocationStrategy StandardDisposalStrategy
       MutexSynchronizationStrategy
       [CallGetInstance; ExitHandler; CallGetInstance] demo_torn_down).1.2
  = constructed demo_torn_down.
Proof.
  split; [exact demo_teardown |].
  destruct (standard_dead_forever always_ok NewAllocationStrategy
              MutexSynchronizationStrategy demo_created demo_torn_down _
              [CallGetInstance; ExitHandler; CallGetInstance] demo_teardown)
    as (H1 & _ & _ & _ & H5).
  split; [exact H1 | exact H5].
Defined.

Lemma guarded_first_access_race_witness :
  (MutexSynchronizationStrategy = MutexSynchronizationStrategy \/
   MutexSynchronizationStrategy = AtomicSynchronizationStrategy) /\
  (forall k, always_ok k = true) /\
  all_finished
    (schedule always_ok NewAllocationStrategy StandardDisposalStrategy
       MutexSynchronizationStrategy (round_robin 8 40)
       (spawn 8 initial_world)) = true /\
  exists p,
    threads
      (schedule always_ok NewAllocationStrategy StandardDisposalStrategy
         MutexSynchronizationStrategy (round_robin 8 40)
         (spawn 8 initial_world)) = replicate 8 (Finished (Ok p)) /\
    constructed
      (shared
         (schedule always_ok NewAllocationStrategy StandardDisposalStrategy
            MutexSynchronizationStrategy (round_robin 8 40)
            (spawn 8 initial_world))) = 1.
Proof.
  assert (F : all_finished
                (schedule always_ok NewAllocationStrategy
                   StandardDisposalStrategy MutexSynchronizationStrategy
                   (round_robin 8 40) (spawn 8 initial_world)) = true).
  { vm_compute. reflexivity. }
  split; [left; reflexivity |]. split; [intros k; reflexivity |].
  split; [exact F |].
  destruct (guarded_first_access_race always_ok NewAllocationStrategy
              StandardDisposalStrategy MutexSynchronizationStrategy
              (round_robin 8 40) (or_introl eq_refl) (fun k => eq_refl))
    as (_ & _ & H).
  destruct (H F) as (p & Ht & _ & Hc).
  exists p. split; assumption.
Defined.

(** * Further properties of the code *)

(** ** The states a coordinator reaches *)

(** The operations of the destroy routine on an occupied slot. *)
Lemma DestroyInstance_occupied_log A Sy w p :
  guard_held Sy w = false -> instance_ptr_ w = Some p ->
  (A = SmartPointerAllocationStrategy -> ptr_instance w = Some p) ->
  (DestroyInstance A Sy w).2 =
    [EvGuardCtor; EvDeallocate (Some p); EvDestruct p; EvRelease p;
     EvInstancePtr None; EvWasDestroyed true; EvGuardDtor].
Proof.
  intros G Hs Hp. unfold_cxx. unfold_guard.
  destruct w as [sl fl mu lf pi li ax nb lv cs]; simpl in *; subst.
  destruct Sy, A; simpl in *; subst; try rewrite (Hp eq_refl); reflexivity.
Qed.

(** X1.  In every sequential run from the start of the program, whatever
    the policies, the storage available and the operations: the live
    payload objects are exactly the one the slot holds.  So there are
    never two live instances, the slot never points to a destroyed
    object, no object outlives its slot, and the lock is free between
    operations. *)
Theorem reachable_live_is_slot
    (malloc_ok : nat -> bool) (A : alloc_strategy) (D : dispose_strategy)
    (Sy : sync_strategy) (ops : list Op) :
  live (run_ops malloc_ok A D Sy ops initial_world).1.2
    = slot_set
        (instance_ptr_ (run_ops malloc_ok A D Sy ops initial_world).1.2) /\
  size (live (run_ops malloc_ok A D Sy ops initial_world).1.2) <= 1 /\
  (forall p,
     instance_ptr_ (run_ops malloc_ok A D Sy ops initial_world).1.2 = Some p ->
     p ∈ live (run_ops malloc_ok A D Sy ops initial_world).1.2) /\
  guard_held Sy (run_ops malloc_ok A D Sy ops initial_world).1.2 = false.
Proof.
  destruct (coordinator_inv_run_ops malloc_ok A D Sy ops initial_world
              (coordinator_inv_initial A D Sy)) as (Ig & Il & _).
  split_and!; try done.
  - rewrite Il. destruct (instance_ptr_ _); unfold slot_set.
    + rewrite size_singleton. lia.
    + rewrite size_empty. lia.
  - intros p Hp. rewrite Il, Hp. unfold slot_set.
    by apply elem_of_singleton.
Qed.

(** X2.  In every state reached from the start of the program a teardown
    is registered exactly while the slot is occupied (never, for an
    immortal coordinator).  A run of the exit handler on an occupied slot
    destroys and releases exactly the slot's object, once, and leaves no
    live object and nothing registered; on an empty slot it does nothing:
    the destroy routine never runs twice for one object. *)
Theorem teardown_registered_once
    (malloc_ok : nat -> bool) (A : alloc_strategy) (D : dispose_strategy)
    (Sy : sync_strategy) (ops : list Op) :
  atexit_list (run_ops malloc_ok A D Sy ops initial_world).1.2 =
    registered_teardowns D
      (instance_ptr_ (run_ops malloc_ok A D Sy ops initial_world).1.2) /\
  (forall p,
     instance_ptr_ (run_ops malloc_ok A D Sy ops initial_world).1.2 = Some p ->
     D <> ImmortalStrategy ->
     exists w1,
       run_exit_handler A Sy (run_ops malloc_ok A D Sy ops initial_world).1.2
       = (Ok tt, w1,
          [EvGuardCtor; EvDeallocate (Some p); EvDestruct p; EvRelease p;
           EvInstancePtr None; EvWasDestroyed true; EvGuardDtor]) /\
       live w1 = ∅ /\ instance_ptr_ w1 = None /\ atexit_list w1 = []) /\
  (instance_ptr_ (run_ops malloc_ok A D Sy ops initial_world).1.2 = None ->
   run_exit_handler A Sy (run_ops malloc_ok A D Sy ops initial_world).1.2
   = (Ok tt, (run_ops malloc_ok A D Sy ops initial_world).1.2, [])).
Proof.
  pose proof (coordinator_inv_run_ops malloc_ok A D Sy ops initial_world
                (coordinator_inv_initial A D Sy)) as I.
  set (w := (run_ops malloc_ok A D Sy ops initial_world).1.2) in *.
  pose proof I as (Ig & Il & Ip & Ix & Ii).
  split_and!; [exact Ix | |].
  - intros p Hs HD.
    assert (Hx : atexit_list w = [DestroyInstanceFn]).
    { rewrite Ix, Hs. unfold registered_teardowns. by destruct D. }
    assert (G : guard_held Sy (set_atexit_list [] w) = false)
      by by destruct Sy.
    assert (Hp : A = SmartPointerAllocationStrategy ->
                 ptr_instance (set_atexit_list [] w) = Some p).
    { intros ->. simpl. by rewrite Ip. }
    pose proof (DestroyInstance_occupied_log A Sy (set_atexit_list [] w) p
                  G Hs Hp) as Hlog.
    destruct (coordinator_inv_run_exit_handler A D Sy w I)
      as (Hr & Jg & Jl & _ & Jx & _).
    destruct (DestroyInstance_runs A Sy (set_atexit_list [] w) G)
      as (wa & wd & ld & wr & _ & _ & _ & E & P1 & _).
    unfold run_exit_handler, bind, read, modify, ret in *.
    rewrite Hx in *. rewrite E in *. simpl in *.
    exists wr. rewrite Hlog. rewrite Jl, Jx, P1. simpl.
    split_and!; try done. unfold registered_teardowns. by destruct D.
  - intros Hs. unfold run_exit_handler, bind, read, ret.
    rewrite Ix, Hs. unfold registered_teardowns. by destruct D.
Qed.

(** X3.  The registered functions run at normal termination, after any
    sequential run from the start of the program.  Under standard and
    resurrection disposal they return and leave no live payload object,
    an empty slot and nothing registered: the instance, if there is one,
    is destroyed by the coordinator before the process ends.  Under
    immortal disposal there is no registered function, and this phase
    changes nothing: the coordinator never destroys its instance. *)
Theorem atexit_phase_destroys_instance
    (malloc_ok : nat -> bool) (A : alloc_strategy) (D : dispose_strategy)
    (Sy : sync_strategy) (ops : list Op) :
  (D <> ImmortalStrategy ->
   (atexit_phase A Sy (run_ops malloc_ok A D Sy ops initial_world).1.2).1.1
     = Ok tt /\
   live
     (atexit_phase A Sy (run_ops malloc_ok A D Sy ops initial_world).1.2).1.2
     = ∅ /\
   instance_ptr_
     (atexit_phase A Sy (run_ops malloc_ok A D Sy ops initial_world).1.2).1.2
     = None /\
   atexit_list
     (atexit_phase A Sy (run_ops malloc_ok A D Sy ops initial_world).1.2).1.2
     = []) /\
  (D = ImmortalStrategy ->
   atexit_phase A Sy (run_ops malloc_ok A D Sy ops initial_world).1.2
   = (Ok tt, (run_ops malloc_ok A D Sy ops initial_world).1.2, [])).
Proof.
  pose proof (coordinator_inv_run_ops malloc_ok A D Sy ops initial_world
                (coordinator_inv_initial A D Sy)) as I.
  set (w := (run_ops malloc_ok A D Sy ops initial_world).1.2) in *.
  pose proof I as (Ig & Il & Ip & Ix & Ii).
  destruct (coordinator_inv_run_exit_handler A D Sy w I)
    as (Hr & Jg & Jl & _ & Jx & _).
  unfold atexit_phase, bind, read, ret. rewrite Ix.
  unfold registered_teardowns in *. split.
  - intros HD. destruct D; try done;
      (destruct (instance_ptr_ w) as [p|] eqn:Hs; simpl;
       [| by rewrite Il, Hs]);
      unfold bind, ret;
      destruct (run_exit_handler A Sy w) as [[r w1] l1] eqn:E;
      simpl in *; subst r; simpl;
      unfold run_exit_handler, bind, read, modify, ret in E;
      rewrite Ix in E;
      (destruct (DestroyInstance_runs A Sy (set_atexit_list [] w))
         as (wa & wd & ld & wr & _ & _ & _ & E' & P1 & _);
       [by destruct Sy |]);
      rewrite E' in E; simplify_eq/=;
      rewrite P1 in *; simpl in *; by split_and!.
  - intros ->. reflexivity.
Qed.

(** X4.  Without the standard policy and with storage available, no
    call fails: in every sequential run from the start of the program,
    with teardowns anywhere in it, every operation returns, so every
    call of [GetInstance] gives a reference. *)
Theorem access_never_fails_without_standard
    (malloc_ok : nat -> bool) (A : alloc_strategy) (D : dispose_strategy)
    (Sy : sync_strategy) (ops : list Op) :
  D <> StandardDisposalStrategy ->
  (forall k, malloc_ok k = true) ->
  length (run_ops malloc_ok A D Sy ops initial_world).1.1 = length ops /\
  Forall (fun r => exists v, r = Ok v)
         (run_ops malloc_ok A D Sy ops initial_world).1.1.
Proof.
  intros HD O.
  pose proof (coordinator_inv_initial A D Sy) as I.
  revert I. generalize initial_world.
  induction ops as [|o ops IH]; intros w I; [by split; [| constructor] |].
  pose proof (coordinator_inv_run_op malloc_ok A D Sy o w I) as I1.
  assert (Hr : exists v, (run_op malloc_ok A D Sy o w).1.1 = Ok v).
  { destruct o.
    - rewrite run_op_CallGetInstance. simpl.
      destruct I as (Ig & _).
      destruct (GetInstance_cases malloc_ok A D Sy w)
        as [(q & Hq & E) | [(_ & Hg & E) | [(_ & _ & _ & Hd & E) |
            [(_ & _ & _ & Ho & E) | (_ & _ & _ & _ & w1 & E & _)]]]];
        try congruence; try (rewrite O in Ho; discriminate);
        rewrite E; simpl; eauto.
    - destruct (coordinator_inv_run_exit_handler A D Sy w I) as [Hr _].
      unfold run_op, bind, ret.
      destruct (run_exit_handler A Sy w) as [[r w1] l1]. simpl in *.
      subst r. simpl. eauto. }
  destruct Hr as [v Hv]. simpl.
  destruct (run_op malloc_ok A D Sy o w) as [[r w1] l1]. simpl in *. subst r.
  destruct (IH w1 I1) as [IH1 IH2].
  destruct (run_ops malloc_ok A D Sy ops w1) as [[rs w2] l2]. simpl in *.
  split; [by rewrite IH1 |]. constructor; eauto.
Qed.

(** A call that finds the flag down leaves it down and does not raise
    the dead-instance exception. *)
Lemma GetInstance_flag_down malloc_ok A D Sy w :
  was_destroyed_ w = false ->
  was_destroyed_ (GetInstance malloc_ok A D Sy w).1.2 = false /\
  forall m, (GetInstance malloc_ok A D Sy w).1.1 <> Throw (runtime_error m).
Proof.
  intros Hf.
  destruct (GetInstance_cases malloc_ok A D Sy w)
    as [(q & Hq & E) | [(_ & _ & E) | [(_ & _ & Hf' & _ & E) |
        [(Hs & Hg & Hd & Ho & E) | (Hs & Hg & Hd & Ho & _)]]]];
    try (rewrite E; simpl; by split); try congruence.
  destruct (GetInstance_creates malloc_ok A D Sy w Hs Hg Hd Ho)
    as (w1 & E & _ & P2 & _).
  rewrite E. simpl. by split.
Qed.

(** The destroy routine does not throw. *)
Lemma run_exit_handler_no_throw A Sy w e :
  (run_exit_handler A Sy w).1.1 <> Throw e.
Proof.
  unfold run_exit_handler, bind, read, modify, ret.
  destruct (atexit_list w) as [|[] rest]; simpl; [done |].
  destruct (guard_held Sy (set_atexit_list rest w)) eqn:G.
  - by rewrite DestroyInstance_waits.
  - destruct (DestroyInstance_runs A Sy _ G)
      as (wa & wd & ld & wr & _ & _ & _ & E & _).
    by rewrite E.
Qed.

(** A [runtime_error] out of a run is the dead-instance exception of the
    standard policy, raised by a call of [GetInstance]. *)
Lemma GetInstance_runtime_error malloc_ok A D Sy w m :
  (GetInstance malloc_ok A D Sy w).1.1 = Throw (runtime_error m) ->
  D = StandardDisposalStrategy /\ m = dead_instance_message.
Proof.
  destruct (GetInstance_cases malloc_ok A D Sy w)
    as [(q & Hq & E) | [(_ & _ & E) | [(_ & _ & _ & Hd & E) |
        [(_ & _ & _ & _ & E) | (_ & _ & _ & _ & w1 & E & _)]]]];
    rewrite E; simpl; intros H; simplify_eq. done.
Qed.

Lemma run_ops_runtime_error malloc_ok A D Sy ops : forall w i m,
  (run_ops malloc_ok A D Sy ops w).1.1 !! i = Some (Throw (runtime_error m)) ->
  D = StandardDisposalStrategy /\ m = dead_instance_message /\
  ops !! i = Some CallGetInstance.
Proof.
  induction ops as [|o ops IH]; intros w i m Hi; [done |].
  simpl in Hi.
  destruct (run_op malloc_ok A D Sy o w) as [[r w1] l1] eqn:Er.
  destruct i as [|i].
  - assert (r = Throw (runtime_error m)) as ->.
    { destruct r as [a|e| |]; simpl in *;
        destruct (run_ops malloc_ok A D Sy ops w1) as [[rs w2] l2];
        simpl in *; by simplify_eq. }
    destruct o.
    + rewrite run_op_CallGetInstance in Er.
      destruct (GetInstance_runtime_error malloc_ok A D Sy w m) as [H1 H2];
        [| done].
      destruct (GetInstance malloc_ok A D Sy w) as [[[a|e| |] w0] l0];
        simpl in *; by simplify_eq.
    + exfalso. unfold run_op, bind, ret in Er.
      pose proof (run_exit_handler_no_throw A Sy w) as Hno.
      destruct (run_exit_handler A Sy w) as [[[[]|e| |] w0] l0];
        simpl in *; simplify_eq. by eapply Hno.
  - assert (Hi' : (run_ops malloc_ok A D Sy ops w1).1.1 !! i
                  = Some (Throw (runtime_error m))).
    { destruct r as [a|e| |]; simpl in *;
        destruct (run_ops malloc_ok A D Sy ops w1) as [[rs w2] l2];
        simpl in *; try done; destruct i; discriminate. }
    by destruct (IH w1 i m Hi') as (H1 & H2 & H3).
Qed.

(** X5.  The dead-instance exception is only ever seen after a teardown:
    in a sequential run that starts with the flag down (as the program
    does), a [runtime_error] comes from a call of [GetInstance] of a
    standard-policy coordinator, carries the dead-instance message, and
    is preceded by a run of the exit handler. *)
Theorem dead_instance_only_after_teardown
    (malloc_ok : nat -> bool) (A : alloc_strategy) (D : dispose_strategy)
    (Sy : sync_strategy) (ops : list Op) (w : World) (i : nat) (m : string) :
  was_destroyed_ w = false ->
  (run_ops malloc_ok A D Sy ops w).1.1 !! i = Some (Throw (runtime_error m)) ->
  D = StandardDisposalStrategy /\
  m = dead_instance_message /\
  ops !! i = Some CallGetInstance /\
  exists k, k < i /\ ops !! k = Some ExitHandler.
Proof.
  intros Hf Hi.
  destruct (run_ops_runtime_error malloc_ok A D Sy ops w i m Hi)
    as (H1 & H2 & H3).
  split_and!; try done. clear H1 H2 H3.
  revert w i Hf Hi. induction ops as [|o ops IH]; intros w i Hf Hi; [done |].
  destruct o.
  - simpl in Hi. rewrite run_op_CallGetInstance in Hi.
    destruct (GetInstance_flag_down malloc_ok A D Sy w Hf) as [Hf1 Hno].
    destruct (GetInstance malloc_ok A D Sy w) as [[r0 w0] l0].
    simpl in *.
    destruct i as [|i].
    + exfalso. destruct r0 as [a|e| |]; simpl in *;
        destruct (run_ops malloc_ok A D Sy ops w0) as [[rs w2] l2];
        simpl in *; simplify_eq. by eapply Hno.
    + assert ((run_ops malloc_ok A D Sy ops w0).1.1 !! i
              = Some (Throw (runtime_error m))) as Hi'.
      { destruct r0 as [a|e| |]; simpl in *;
          destruct (run_ops malloc_ok A D Sy ops w0) as [[rs w2] l2];
          simpl in *; try done; destruct i; discriminate. }
      destruct (IH w0 i Hf1 Hi') as (k & Hk & Ho).
      exists (S k). split; [lia | done].
  - destruct i as [|i].
    + destruct (run_ops_runtime_error malloc_ok A D Sy _ w 0 m Hi)
        as (_ & _ & H3). discriminate.
    + exists 0. split; [lia | done].
Qed.

(** ** sync_strategy.hpp: the guards *)

Lemma Deallocate_no_guard_event A v w :
  Forall (fun e => guard_event e = false) (Deallocate A v w).2.
Proof.
  unfold_cxx. destruct A, v as [p|]; simpl;
    try destruct (ptr_instance w); simpl; repeat constructor.
Qed.

(** X6.  The guard is released on every path.  Whatever the policies
    and the state, after [GetInstance] (returned, thrown or waiting) the
    mutex and the atomic flag are as they were before the call, and the
    same holds of the lock after [DestroyInstance]; the operations of
    either are none at all, or start with the guard's constructor, end
    with its destructor, and construct no other guard between them. *)
Theorem guard_released_on_every_path
    (malloc_ok : nat -> bool) (A : alloc_strategy) (D : dispose_strategy)
    (Sy : sync_strategy) (w : World) :
  mutex_ (GetInstance malloc_ok A D Sy w).1.2 = mutex_ w /\
  lock_flag_ (GetInstance malloc_ok A D Sy w).1.2 = lock_flag_ w /\
  guard_held Sy (DestroyInstance A Sy w).1.2 = guard_held Sy w /\
  ((GetInstance malloc_ok A D Sy w).2 = [] \/
   exists mid,
     (GetInstance malloc_ok A D Sy w).2 = EvGuardCtor :: mid ++ [EvGuardDtor] /\
     Forall (fun e => guard_event e = false) mid) /\
  ((DestroyInstance A Sy w).2 = [] \/
   exists mid,
     (DestroyInstance A Sy w).2 = EvGuardCtor :: mid ++ [EvGuardDtor] /\
     Forall (fun e => guard_event e = false) mid).
Proof.
  assert (HD : guard_held Sy (DestroyInstance A Sy w).1.2 = guard_held Sy w /\
    ((DestroyInstance A Sy w).2 = [] \/
     exists mid,
       (DestroyInstance A Sy w).2 = EvGuardCtor :: mid ++ [EvGuardDtor] /\
       Forall (fun e => guard_event e = false) mid)).
  { destruct (guard_held Sy w) eqn:G.
    - rewrite DestroyInstance_waits by done. simpl. split; [done | by left].
    - destruct (DestroyInstance_runs A Sy w G)
        as (wa & wd & ld & wr & _ & Hd & _ & E & _ & _ & Hg & _).
      rewrite E. simpl. split; [done | right].
      exists (EvDeallocate (instance_ptr_ w) :: ld ++
              [EvInstancePtr None; EvWasDestroyed true]).
      split.
      + simpl. by rewrite <- !app_assoc.
      + pose proof (Deallocate_no_guard_event A (instance_ptr_ w) wa) as F.
        rewrite Hd in F. simpl in F.
        rewrite app_comm_cons. apply Forall_app. split; [done |].
        repeat constructor. }
  destruct HD as [HD1 HD2].
  destruct (GetInstance_cases malloc_ok A D Sy w)
    as [(q & Hq & E) | [(_ & _ & E) | [(_ & _ & _ & _ & E) |
        [(_ & _ & _ & _ & E) | (Hs & Hg & Hd & Ho & _)]]]].
  - rewrite E. simpl. split_and!; try done. by left.
  - rewrite E. simpl. split_and!; try done. by left.
  - rewrite E. simpl. split_and!; try done. right.
    exists [EvHandleDeadInstance]. split; [done | repeat constructor].
  - rewrite E. simpl. split_and!; try done. right.
    exists ((if was_destroyed_ w
             then [EvHandleDeadInstance; EvWasDestroyed false] else []) ++
            [EvAllocate; EvRequest None]).
    split; [by rewrite <- app_assoc |].
    destruct (was_destroyed_ w); repeat constructor.
  - destruct (GetInstance_creates malloc_ok A D Sy w Hs Hg Hd Ho)
      as (w1 & E & _ & _ & P3 & P4 & _).
    rewrite E. simpl. split_and!; try done. right.
    unfold creation_events.
    exists ((if was_destroyed_ w
             then [EvHandleDeadInstance; EvWasDestroyed false] else []) ++
            [EvAllocate; EvRequest (Some (next_block w));
             EvConstruct (next_block w)] ++
            match A, ptr_instance w with
            | SmartPointerAllocationStrategy, Some q =>
                [EvDestruct q; EvRelease q]
            | _, _ => []
            end ++
            [EvInstancePtr (Some (next_block w)); EvRegisterForCleanup] ++
            match D with
            | ImmortalStrategy => []
            | _ => [EvAtExit DestroyInstanceFn]
            end).
    split.
    + destruct (was_destroyed_ w), A, D, (ptr_instance w); reflexivity.
    + destruct (was_destroyed_ w), A, D, (ptr_instance w);
        repeat constructor.
Qed.

(** ** sync_strategy.hpp: [GetThreadLocalInstance] *)

Lemma GetThreadLocalInstance_again malloc_ok t w p :
  local_instance w !! t = Some p ->
  GetThreadLocalInstance malloc_ok t w = (Ok p, w, []).
Proof.
  intros H. unfold GetThreadLocalInstance, bind, read, ret. by rewrite H.
Qed.

Lemma GetThreadLocalInstance_first malloc_ok t w :
  local_instance w !! t = None ->
  GetThreadLocalInstance malloc_ok t w =
    if malloc_ok (next_block w)
    then (Ok (next_block w),
          set_local_instance (<[t := next_block w]> (local_instance w))
            (set_heap ({[next_block w]} ∪ live w) (S (constructed w))
               (set_next_block (S (next_block w)) w)),
          [EvRequest (Some (next_block w)); EvConstruct (next_block w)])
    else (Throw bad_alloc, set_next_block (S (next_block w)) w,
          [EvRequest None]).
Proof.
  intros H.
  unfold GetThreadLocalInstance, NewAllocationStrategy_Allocate,
    request_block, construct_at, bind, read, modify, ret, throw.
  rewrite H. simpl. by destruct (malloc_ok (next_block w)).
Qed.

(** X7.  Once [GetThreadLocalInstance] has returned an object to a
    thread, every later call by that thread returns the same object and
    changes nothing.  The call that creates the object leaves the
    variables of the other threads and the statics of the coordinator as
    they were, and destroys nothing. *)
Theorem GetThreadLocalInstance_stable
    (malloc_ok : nat -> bool) (t : tid) (w w1 : World) (p : ptr)
    (l : list Event) :
  GetThreadLocalInstance malloc_ok t w = (Ok p, w1, l) ->
  GetThreadLocalInstance malloc_ok t w1 = (Ok p, w1, []) /\
  local_instance w1 !! t = Some p /\
  (forall t', t' <> t -> local_instance w1 !! t' = local_instance w !! t') /\
  instance_ptr_ w1 = instance_ptr_ w /\
  was_destroyed_ w1 = was_destroyed_ w /\
  atexit_list w1 = atexit_list w /\
  live w ⊆ live w1.
Proof.
  intros H.
  assert (Hp : local_instance w1 !! t = Some p /\
    (forall t', t' <> t -> local_instance w1 !! t' = local_instance w !! t') /\
    instance_ptr_ w1 = instance_ptr_ w /\
    was_destroyed_ w1 = was_destroyed_ w /\
    atexit_list w1 = atexit_list w /\
    live w ⊆ live w1).
  { destruct (local_instance w !! t) as [q|] eqn:Hq.
    - rewrite (GetThreadLocalInstance_again _ _ _ _ Hq) in H.
      by simplify_eq.
    - rewrite (GetThreadLocalInstance_first _ _ _ Hq) in H.
      destruct (malloc_ok (next_block w)); simplify_eq. simpl.
      rewrite lookup_insert_eq. split_and!; try done.
      + intros t' Ht. by rewrite lookup_insert_ne.
      + set_solver. }
  split; [| done]. apply GetThreadLocalInstance_again. by destruct Hp.
Qed.

(** X8.  Two threads that call [GetThreadLocalInstance] for the first
    time get two different objects when storage is available, and each
    keeps its own afterwards. *)
Theorem GetThreadLocalInstance_distinct
    (malloc_ok : nat -> bool) (t1 t2 : tid) (w : World) :
  t1 <> t2 ->
  local_instance w !! t1 = None -> local_instance w !! t2 = None ->
  malloc_ok (next_block w) = true -> malloc_ok (S (next_block w)) = true ->
  exists p1 p2 w1 w2 l1 l2,
    GetThreadLocalInstance malloc_ok t1 w = (Ok p1, w1, l1) /\
    GetThreadLocalInstance malloc_ok t2 w1 = (Ok p2, w2, l2) /\
    p1 <> p2 /\
    GetThreadLocalInstance malloc_ok t1 w2 = (Ok p1, w2, []) /\
    GetThreadLocalInstance malloc_ok t2 w2 = (Ok p2, w2, []) /\
    live w2 = {[p2]} ∪ ({[p1]} ∪ live w).
Proof.
  intros Ht H1 H2 O1 O2.
  pose proof (GetThreadLocalInstance_first malloc_ok t1 w H1) as E1.
  rewrite O1 in E1.
  set (w1 := set_local_instance (<[t1 := next_block w]> (local_instance w))
               (set_heap ({[next_block w]} ∪ live w) (S (constructed w))
                  (set_next_block (S (next_block w)) w))) in *.
  assert (H2' : local_instance w1 !! t2 = None).
  { simpl. by rewrite lookup_insert_ne. }
  pose proof (GetThreadLocalInstance_first malloc_ok t2 w1 H2') as E2.
  simpl in E2. rewrite O2 in E2.
  eexists _, _, _, _, _, _. split; [exact E1 |]. split; [exact E2 |].
  split; [lia |]. split_and!.
  - apply GetThreadLocalInstance_again. simpl.
    rewrite lookup_insert_ne by done. by rewrite lookup_insert_eq.
  - apply GetThreadLocalInstance_again. simpl. by rewrite lookup_insert_eq.
  - reflexivity.
Qed.

(** ** allocation_strategy.hpp *)

(** X9.  The reference-counted policy on its own never owns more than
    one object.  [Allocate] over a handle that owns an object destroys
    that object and leaves the new one as the only live one; a failed
    [Allocate] keeps the old object and the handle; [Deallocate] releases
    what the handle owns whatever pointer it is given, and leaves no live
    object. *)
Theorem smart_pointer_owns_one
    (malloc_ok : nat -> bool) (w : World) :
  smart_inv w ->
  (malloc_ok (next_block w) = true ->
   exists w1 l,
     SmartPointerAllocationStrategy_Allocate malloc_ok w
       = (Ok (next_block w), w1, l) /\
     smart_inv w1 /\ live w1 = {[next_block w]} /\
     ptr_instance w1 = Some (next_block w)) /\
  (malloc_ok (next_block w) = false ->
   exists w1 l,
     SmartPointerAllocationStrategy_Allocate malloc_ok w
       = (Throw bad_alloc, w1, l) /\
     smart_inv w1 /\ live w1 = live w /\ ptr_instance w1 = ptr_instance w) /\
  (forall instance,
     exists w1 l,
       SmartPointerAllocationStrategy_Deallocate instance w = (Ok tt, w1, l) /\
       smart_inv w1 /\ live w1 = ∅ /\ ptr_instance w1 = None).
Proof.
  intros [Hl Hq].
  unfold SmartPointerAllocationStrategy_Allocate,
    SmartPointerAllocationStrategy_Deallocate, shared_ptr_release,
    request_block, construct_at, destroy_at, release_block, smart_inv,
    bind, read, modify, ret, throw, emit.
  split_and!.
  - intros ->. simpl.
    destruct (ptr_instance w) as [q|] eqn:Ep; simpl in *.
    + specialize (Hq q eq_refl). eexists _, _. split; [reflexivity |].
      simpl. rewrite Hl. split_and!; try done.
      * set_solver by lia.
      * intros ? [= <-]. lia.
      * set_solver by lia.
    + eexists _, _. split; [reflexivity |]. simpl. rewrite Hl.
      split_and!; try done.
      * set_solver.
      * intros ? [= <-]. lia.
      * set_solver.
  - intros ->. simpl. eexists _, _. split; [reflexivity |]. simpl.
    split_and!; try done. intros q Hq'. specialize (Hq q Hq'). lia.
  - intros instance. simpl.
    destruct (ptr_instance w) as [q|] eqn:Ep; simpl in *;
      eexists _, _; (split; [reflexivity |]); simpl; rewrite Hl;
      split_and!; try done; set_solver.
Qed.

(** X10.  Heap and manual-memory policies: [Deallocate] of what
    [Allocate] has just returned takes the heap back to the live objects
    it had (the block is a new one), while [Allocate] alone only ever
    adds to them; [Deallocate] of a null pointer changes nothing. *)
Theorem allocate_deallocate_round_trip
    (malloc_ok : nat -> bool) (A : alloc_strategy) (w : World) :
  A <> SmartPointerAllocationStrategy ->
  next_block w ∉ live w ->
  malloc_ok (next_block w) = true ->
  exists w1 l1 w2 l2,
    Allocate malloc_ok A w = (Ok (next_block w), w1, l1) /\
    live w1 = {[next_block w]} ∪ live w /\
    Deallocate A (Some (next_block w)) w1 = (Ok tt, w2, l2) /\
    live w2 = live w /\
    constructed w2 = S (constructed w) /\
    Deallocate A None w = (Ok tt, w, [EvDeallocate None]).
Proof.
  intros HA Hn O. unfold_cxx.
  destruct A; try done; simpl; rewrite O; simpl;
    eexists _, _, _, _; split_and!; try reflexivity; simpl; set_solver.
Qed.

(** ** Any number of threads *)

(** X11.  Mutual exclusion.  With the mutex or the spin lock, whatever
    the number of threads, the storage available and the schedule, two
    threads are never inside the guard at once, and the lock is taken
    exactly while a thread is inside. *)
Theorem guard_mutual_exclusion
    (malloc_ok : nat -> bool) (A : alloc_strategy) (D : dispose_strategy)
    (Sy : sync_strategy) (n : nat) (sched : list tid) (i j : tid)
    (ci cj : pc) :
  Sy = MutexSynchronizationStrategy \/ Sy = AtomicSynchronizationStrategy ->
  threads (schedule malloc_ok A D Sy sched (spawn n initial_world)) !! i
    = Some ci ->
  threads (schedule malloc_ok A D Sy sched (spawn n initial_world)) !! j
    = Some cj ->
  in_guard ci = true -> in_guard cj = true ->
  i = j /\
  guard_held Sy (shared (schedule malloc_ok A D Sy sched
                           (spawn n initial_world))) = true.
Proof.
  intros X Hi Hj Gi Gj.
  assert (I0 : pool_inv Sy 0 (spawn n initial_world)).
  { apply (spawn_inv Sy n initial_world); [done | by destruct Sy]. }
  destruct (schedule_inv malloc_ok A D Sy 0 sched _ X I0) as (Ig & _ & _).
  set (P := schedule malloc_ok A D Sy sched (spawn n initial_world)) in *.
  pose proof (count_pcs_lookup in_guard (threads P) i ci Hi Gi) as L.
  destruct (guard_held Sy (shared P)) eqn:G; [| lia].
  split; [| done].
  apply (count_pcs_unique in_guard (threads P) i j ci cj); try done. lia.
Qed.

(** X12.  Agreement at every moment.  With the mutex or the spin lock,
    whatever the number of threads, the storage available (allocations
    may fail) and the schedule: the threads that have returned so far all
    hold the object that is in the slot, no thread has dereferenced a
    null pointer, and at most one object has been constructed. *)
Theorem guarded_calls_agree
    (malloc_ok : nat -> bool) (A : alloc_strategy) (D : dispose_strategy)
    (Sy : sync_strategy) (n : nat) (sched : list tid) :
  Sy = MutexSynchronizationStrategy \/ Sy = AtomicSynchronizationStrategy ->
  (forall i p,
     threads (schedule malloc_ok A D Sy sched (spawn n initial_world)) !! i
       = Some (Finished (Ok p)) ->
     instance_ptr_ (shared (schedule malloc_ok A D Sy sched
                              (spawn n initial_world))) = Some p) /\
  (forall i,
     threads (schedule malloc_ok A D Sy sched (spawn n initial_world)) !! i
       <> Some (Finished Undefined)) /\
  constructed (shared (schedule malloc_ok A D Sy sched
                         (spawn n initial_world))) <= 1.
Proof.
  intros X.
  assert (I0 : pool_inv Sy 0 (spawn n initial_world)).
  { apply (spawn_inv Sy n initial_world); [done | by destruct Sy]. }
  destruct (schedule_inv malloc_ok A D Sy 0 sched _ X I0) as (Ig & Ic & Is).
  set (P := schedule malloc_ok A D Sy sched (spawn n initial_world)) in *.
  rewrite Forall_lookup in Is. split_and!.
  - intros i p Hi. exact (Is i _ Hi).
  - intros i Hi. exact (Is i _ Hi).
  - rewrite Ic.
    destruct (instance_ptr_ (shared P)) as [p|] eqn:Hs.
    + assert (count_pcs at_store (threads P) = 0) as ->; [| lia].
      apply count_pcs_zero, Forall_lookup. intros i c Hi.
      specialize (Is i c Hi). by destruct c.
    + assert (count_pcs at_store (threads P)
              <= count_pcs in_guard (threads P)) as L.
      { unfold count_pcs. clear.
        induction (threads P) as [|c cs IH]; simpl; [lia |].
        destruct c; simpl; lia. }
      rewrite Ig in L. destruct (guard_held Sy (shared P)); lia.
Qed.

(** Without a lock every unfinished thread can move. *)
Lemma pool_progress_lockless malloc_ok A D Sy P :
  Sy = NoSynchronizationStrategy \/ Sy = ThreadLocalStrategy ->
  all_finished P = false ->
  exists t P1, pool_step malloc_ok A D Sy t P = Some P1.
Proof.
  intros X F.
  destruct (unfinished_thread _ F) as (t & c & Ht & Fc).
  destruct (thread_step_enabled malloc_ok A D Sy c (shared P) Fc)
    as [[[c1 w1] l1] Hs].
  { right. by destruct X as [-> | ->]. }
  exists t. unfold pool_step. rewrite Ht, Hs. eauto.
Qed.

Lemma pool_terminates_lockless malloc_ok A D Sy n : forall P,
  Sy = NoSynchronizationStrategy \/ Sy = ThreadLocalStrategy ->
  total steps_left (threads P) <= n ->
  exists sched, all_finished (schedule malloc_ok A D Sy sched P) = true.
Proof.
  induction n as [|n IH]; intros P X Hn.
  - destruct (all_finished P) eqn:F; [by exists [] |].
    destruct (pool_progress_lockless malloc_ok A D Sy P X F) as (t & P1 & Hs).
    apply pool_step_decreases in Hs. lia.
  - destruct (all_finished P) eqn:F; [by exists [] |].
    destruct (pool_progress_lockless malloc_ok A D Sy P X F) as (t & P1 & Hs).
    destruct (IH P1) as [sched Hsched]; [done | |].
    { apply pool_step_decreases in Hs. lia. }
    exists (t :: sched). simpl. by rewrite Hs.
Qed.

(** X13.  No deadlock, under every policy.  Whatever the policies, the
    number of threads, the storage available and the schedule so far,
    the threads can be scheduled on until every one of them has left
    [GetInstance]; and a thread takes at most eleven steps, so the
    schedule that is left is at most [11 * n] steps of work. *)
Theorem concurrent_calls_complete
    (malloc_ok : nat -> bool) (A : alloc_strategy) (D : dispose_strategy)
    (Sy : sync_strategy) (n : nat) (sched : list tid) :
  (exists more,
     all_finished (schedule malloc_ok A D Sy (sched ++ more)
                     (spawn n initial_world)) = true) /\
  total steps_left
    (threads (schedule malloc_ok A D Sy sched (spawn n initial_world)))
    <= 11 * n.
Proof.
  split.
  - assert (X : (Sy = MutexSynchronizationStrategy \/
                 Sy = AtomicSynchronizationStrategy) \/
                (Sy = NoSynchronizationStrategy \/ Sy = ThreadLocalStrategy))
      by (destruct Sy; eauto).
    destruct X as [X | X].
    + assert (I0 : pool_inv Sy 0 (spawn n initial_world)).
      { apply (spawn_inv Sy n initial_world); [done | by destruct Sy]. }
      pose proof (schedule_inv malloc_ok A D Sy 0 sched _ X I0) as I.
      destruct (pool_terminates malloc_ok A D Sy 0 _ _ X I (le_n _))
        as [more Hm].
      exists more. by rewrite schedule_app.
    + destruct (pool_terminates_lockless malloc_ok A D Sy _
                  (schedule malloc_ok A D Sy sched (spawn n initial_world))
                  X (le_n _)) as [more Hm].
      exists more. by rewrite schedule_app.
  - assert (H0 : total steps_left (threads (spawn n initial_world)) = 11 * n).
    { simpl. induction n as [|n IH]; simpl in *; lia. }
    rewrite <- H0. generalize (spawn n initial_world). clear H0.
    induction sched as [|t sched IH]; intros P; [done |].
    simpl. destruct (pool_step malloc_ok A D Sy t P) as [P1|] eqn:E;
      [| apply IH].
    apply pool_step_decreases in E. specialize (IH P1). lia.
Qed.

(** X14.  Without a lock the coordinator is not safe for threads.  For
    the no-op guards of [NoSynchronizationStrategy] and
    [ThreadLocalStrategy], whatever the allocation and disposal policies,
    there is a schedule of two threads in which both find the slot empty
    and both allocate: two objects are constructed by two calls. *)
Theorem lockless_double_construction
    (A : alloc_strategy) (D : dispose_strategy) (Sy : sync_strategy) :
  Sy = NoSynchronizationStrategy \/ Sy = ThreadLocalStrategy ->
  exists sched,
    all_finished (schedule always_ok A D Sy sched (spawn 2 initial_world))
      = true /\
    constructed (shared (schedule always_ok A D Sy sched
                           (spawn 2 initial_world))) = 2 /\
    Forall (fun c => exists p, c = Finished (Ok p))
      (threads (schedule always_ok A D Sy sched (spawn 2 initial_world))).
Proof.
  intros X. exists racing_schedule.
  destruct X as [-> | ->]; destruct A, D;
    (split_and!; [vm_compute; reflexivity | vm_compute; reflexivity |]);
    vm_compute; repeat constructor; eauto.
Qed.

(** ** demo.cpp: the settings behind [ConfigManager] *)

Section DemoProperties.

Context (malloc_ok : nat -> bool).

Local Abbreviation setOption := (ConfigManager_setOption malloc_ok).
Local Abbreviation getOption := (ConfigManager_getOption malloc_ok).

(** After a successful [setOption] the slot holds an object that is
    alive and has the option. *)
Lemma ConfigManager_setOption_done key value P P1 :
  setOption key value P = (Ok tt, P1) ->
  exists p s,
    instance_ptr_ (statics P1) = Some p /\
    objects P1 !! p = Some s /\ s !! key = Some value /\
    forall key' value' P0 s0,
      (ConfigManager_GetInstance malloc_ok P).2 = P0 ->
      objects P0 !! p = Some s0 -> key' <> key ->
      s0 !! key' = value' -> s !! key' = value'.
Proof.
  unfold ConfigManager_setOption, ConfigManager_GetInstance, run_in_process.
  destruct (GetInstance malloc_ok SmartPointerAllocationStrategy
              ResurrectionStrategy MutexSynchronizationStrategy (statics P))
    as [[r w1] l] eqn:E.
  destruct r as [p|e| |]; simpl; try discriminate.
  destruct (_ !! p) as [s|] eqn:Hs; try discriminate.
  intros H. simplify_eq. simpl.
  apply GetInstance_returns_slot in E.
  exists p, (<[key := value]> s). rewrite !lookup_insert_eq.
  split_and!; try done.
  intros key' value' P0 s0 <- H0 Hne <-. simpl in H0.
  rewrite Hs in H0. simplify_eq. by rewrite lookup_insert_ne.
Qed.

(** Reading through the coordinator while the slot is occupied. *)
Lemma ConfigManager_getOption_occupied key P p s :
  instance_ptr_ (statics P) = Some p -> objects P !! p = Some s ->
  getOption key P = (Ok (AppSettings_getOption key s), P).
Proof.
  intros Hp Hs.
  unfold ConfigManager_getOption, ConfigManager_GetInstance, run_in_process.
  rewrite (GetInstance_occupied _ _ _ _ _ _ Hp). simpl. rewrite Hs.
  by destruct P.
Qed.

(** X15.  An option set through [ConfigManager::GetInstance()] is read
    back through it: after two successful [setOption] calls, [getOption]
    of the second key gives the second value, and [getOption] of the
    first key still gives the first value when the keys differ; the reads
    change nothing. *)
Theorem ConfigManager_set_then_get
    (key value key' value' : string) (P P1 P2 : Process) :
  setOption key value P = (Ok tt, P1) ->
  setOption key' value' P1 = (Ok tt, P2) ->
  getOption key' P2 = (Ok value', P2) /\
  (key <> key' -> getOption key P2 = (Ok value, P2)).
Proof.
  intros H1 H2.
  destruct (ConfigManager_setOption_done _ _ _ _ H1)
    as (p & s & Hp & Hs & Hk & _).
  destruct (ConfigManager_setOption_done _ _ _ _ H2)
    as (p' & s' & Hp' & Hs' & Hk' & Hother).
  split.
  - rewrite (ConfigManager_getOption_occupied key' P2 p' s' Hp' Hs').
    unfold AppSettings_getOption. by rewrite Hk'.
  - intros Hne.
    rewrite (ConfigManager_getOption_occupied key P2 p' s' Hp' Hs').
    unfold AppSettings_getOption.
    assert (Hg : ConfigManager_GetInstance malloc_ok P1 = (Ok p, P1)).
    { unfold ConfigManager_GetInstance, run_in_process.
      rewrite (GetInstance_occupied _ _ _ _ _ _ Hp). simpl. by destruct P1. }
    assert (p' = p) as ->.
    { unfold ConfigManager_setOption in H2. rewrite Hg in H2.
      rewrite Hs in H2. simplify_eq. simpl in Hp'. congruence. }
    rewrite (Hother key (Some value) P1 s); try done.
    by rewrite Hg.
Qed.

(** X16.  [ConfigManager] resurrects, and forgets.  In any state its
    coordinator can be in between operations, once the exit handler has
    run, [getOption] of any key gives ["undefined"] if storage is
    available: the call builds a new [AppSettings], and what was set
    before the teardown is gone with the old one.  The same holds of a
    first access, where there is no old one. *)
Theorem ConfigManager_forgets_after_teardown (key : string) (P : Process) :
  coordinator_inv SmartPointerAllocationStrategy ResurrectionStrategy
    MutexSynchronizationStrategy (statics P) ->
  malloc_ok (next_block (statics P)) = true ->
  (ConfigManager_exit_handler P).1 = Ok tt /\
  exists P2,
    getOption key (ConfigManager_exit_handler P).2
      = (Ok "undefined"%string, P2) /\
    instance_ptr_ (statics P2) = Some (next_block (statics P)) /\
    objects P2 !! next_block (statics P) = Some ∅.
Proof.
  intros I O.
  destruct (coordinator_inv_run_exit_handler _ _ _ _ I) as [Hr I1].
  unfold ConfigManager_exit_handler, run_in_process.
  destruct (run_exit_handler SmartPointerAllocationStrategy
              MutexSynchronizationStrategy (statics P)) as [[r w1] l1] eqn:E.
  simpl in *. subst r. split; [done |].
  assert (Hs : instance_ptr_ w1 = None /\ next_block w1 = next_block (statics P)).
  { unfold run_exit_handler, bind, read, modify, ret in E.
    destruct I as (Ig & _ & _ & Ix & _).
    unfold registered_teardowns in Ix. rewrite Ix in E.
    destruct (instance_ptr_ (statics P)) eqn:Hs; simpl in E.
    - destruct (DestroyInstance_runs SmartPointerAllocationStrategy
                  MutexSynchronizationStrategy
                  (set_atexit_list [] (statics P)) Ig)
        as (wa & wd & ld & wr & _ & _ & _ & E' & P1 & _ & _ & _ & P5 & _).
      rewrite E' in E. by simplify_eq.
    - by simplify_eq. }
  destruct Hs as [Hs Hn]. destruct I1 as (Ig & _ & Ip & _).
  rewrite Hs in Ip.
  destruct (GetInstance_creates malloc_ok SmartPointerAllocationStrategy
              ResurrectionStrategy MutexSynchronizationStrategy w1)
    as (w2 & Eg & Hp2 & _); [done | done | by right | by rewrite Hn |].
  unfold ConfigManager_getOption, ConfigManager_GetInstance, run_in_process.
  simpl. rewrite Eg. unfold creation_events. rewrite Ip, Hn.
  destruct (was_destroyed_ w1); simpl; rewrite lookup_insert_eq;
    eexists; (split; [reflexivity |]); simpl; rewrite lookup_insert_eq;
    split; congruence.
Qed.

End DemoProperties.

(** ** The further properties at work *)

Lemma teardown_registered_once_witness :
  instance_ptr_
    (run_ops always_ok NewAllocationStrategy StandardDisposalStrategy
       MutexSynchronizationStrategy [CallGetInstance] initial_world).1.2
  = Some 0 /\
  StandardDisposalStrategy <> ImmortalStrategy /\
  exists w1,
    run_exit_handler NewAllocationStrategy MutexSynchronizationStrategy
      (run_ops always_ok NewAllocationStrategy StandardDisposalStrategy
         MutexSynchronizationStrategy [CallGetInstance] initial_world).1.2
    = (Ok tt, w1,
       [EvGuardCtor; EvDeallocate (Some 0); EvDestruct 0; EvRelease 0;
        EvInstancePtr None; EvWasDestroyed true; EvGuardDtor]) /\
    live w1 = ∅.
Proof.
  assert (H : instance_ptr_
                (run_ops always_ok NewAllocationStrategy
                   StandardDisposalStrategy MutexSynchronizationStrategy
                   [CallGetInstance] initial_world).1.2 = Some 0).
  { vm_compute. reflexivity. }
  assert (N : StandardDisposalStrategy <> ImmortalStrategy) by discriminate.
  split; [exact H |]. split; [exact N |].
  destruct (teardown_registered_once always_ok NewAllocationStrategy
              StandardDisposalStrategy MutexSynchronizationStrategy
              [CallGetInstance]) as (_ & T & _).
  destruct (T 0 H N) as (w1 & E & L & _).
  exists w1. split; assumption.
Defined.

Lemma atexit_phase_destroys_instance_witness :
  ResurrectionStrategy <> ImmortalStrategy /\
  live
    (atexit_phase SmartPointerAllocationStrategy MutexSynchronizationStrategy
       (run_ops always_ok SmartPointerAllocationStrategy ResurrectionStrategy
          MutexSynchronizationStrategy
          [CallGetInstance; ExitHandler; CallGetInstance]
          initial_world).1.2).1.2 = ∅.
Proof.
  assert (N : ResurrectionStrategy <> ImmortalStrategy) by discriminate.
  split; [exact N |].
  destruct (atexit_phase_destroys_instance always_ok
              SmartPointerAllocationStrategy ResurrectionStrategy
              MutexSynchronizationStrategy
              [CallGetInstance; ExitHandler; CallGetInstance]) as (T & _).
  destruct (T N) as (_ & L & _). exact L.
Defined.

Lemma access_never_fails_without_standard_witness :
  ResurrectionStrategy <> StandardDisposalStrategy /\
  (forall k, always_ok k = true) /\
  Forall (fun r => exists v, r = Ok v)
    (run_ops always_ok NewAllocationStrategy ResurrectionStrategy
       MutexSynchronizationStrategy
       [CallGetInstance; ExitHandler; CallGetInstance] initial_world).1.1.
Proof.
  assert (N : ResurrectionStrategy <> StandardDisposalStrategy)
    by discriminate.
  split; [exact N |]. split; [intros k; reflexivity |].
  exact (proj2 (access_never_fails_without_standard always_ok
                  NewAllocationStrategy ResurrectionStrategy
                  MutexSynchronizationStrategy
                  [CallGetInstance; ExitHandler; CallGetInstance]
                  N (fun k => eq_refl))).
Defined.

Lemma dead_instance_only_after_teardown_witness :
  was_destroyed_ initial_world = false /\
  (run_ops always_ok NewAllocationStrategy StandardDisposalStrategy
     MutexSynchronizationStrategy
     [CallGetInstance; ExitHandler; CallGetInstance] initial_world).1.1 !! 2
  = Some (Throw (runtime_error dead_instance_message)) /\
  exists k,
    k < 2 /\
    [CallGetInstance; ExitHandler; CallGetInstance] !! k = Some ExitHandler.
Proof.
  assert (H : (run_ops always_ok NewAllocationStrategy
                 StandardDisposalStrategy MutexSynchronizationStrategy
                 [CallGetInstance; ExitHandler; CallGetInstance]
                 initial_world).1.1 !! 2
              = Some (Throw (runtime_error dead_instance_message))).
  { vm_compute. reflexivity. }
  split; [reflexivity |]. split; [exact H |].
  destruct (dead_instance_only_after_teardown always_ok NewAllocationStrategy
              StandardDisposalStrategy MutexSynchronizationStrategy
              [CallGetInstance; ExitHandler; CallGetInstance] initial_world
              2 dead_instance_message eq_refl H) as (_ & _ & _ & K).
  exact K.
Defined.

Lemma GetThreadLocalInstance_stable_witness :
  GetThreadLocalInstance always_ok 3 initial_world
  = (Ok 0,
     (GetThreadLocalInstance always_ok 3 initial_world).1.2,
     [EvRequest (Some 0); EvConstruct 0]) /\
  GetThreadLocalInstance always_ok 3
    (GetThreadLocalInstance always_ok 3 initial_world).1.2
  = (Ok 0, (GetThreadLocalInstance always_ok 3 initial_world).1.2, []).
Proof.
  assert (H : GetThreadLocalInstance always_ok 3 initial_world
              = (Ok 0,
                 (GetThreadLocalInstance always_ok 3 initial_world).1.2,
                 [EvRequest (Some 0); EvConstruct 0])).
  { vm_compute. reflexivity. }
  split; [exact H |].
  exact (proj1 (GetThreadLocalInstance_stable always_ok 3 initial_world
                  _ 0 _ H)).
Defined.

Lemma GetThreadLocalInstance_distinct_witness :
  0 <> 1 /\
  local_instance initial_world !! 0 = None /\
  local_instance initial_world !! 1 = None /\
  always_ok (next_block initial_world) = true /\
  always_ok (S (next_block initial_world)) = true /\
  exists p1 p2 w1 w2 l1 l2,
    GetThreadLocalInstance always_ok 0 initial_world = (Ok p1, w1, l1) /\
    GetThreadLocalInstance always_ok 1 w1 = (Ok p2, w2, l2) /\
    p1 <> p2.
Proof.
  assert (N : 0 <> 1) by discriminate.
  split; [exact N |]. split; [reflexivity |]. split; [reflexivity |].
  split; [reflexivity |]. split; [reflexivity |].
  destruct (GetThreadLocalInstance_distinct always_ok 0 1 initial_world
              N eq_refl eq_refl eq_refl eq_refl)
    as (p1 & p2 & w1 & w2 & l1 & l2 & E1 & E2 & Hne & _).
  exists p1, p2, w1, w2, l1, l2. split; [exact E1 |]. split; assumption.
Defined.

Lemma smart_inv_initial : smart_inv initial_world.
Proof. split; [reflexivity | intros q H; discriminate H]. Defined.

Lemma smart_pointer_owns_one_witness :
  smart_inv initial_world /\
  always_ok (next_block initial_world) = true /\
  exists w1 l,
    SmartPointerAllocationStrategy_Allocate always_ok initial_world
      = (Ok (next_block initial_world), w1, l) /\
    live w1 = {[next_block initial_world]}.
Proof.
  split; [exact smart_inv_initial |]. split; [reflexivity |].
  destruct (smart_pointer_owns_one always_ok initial_world smart_inv_initial)
    as (H & _).
  destruct (H eq_refl) as (w1 & l & E & _ & L & _).
  exists w1, l. split; assumption.
Defined.

Lemma allocate_deallocate_round_trip_witness :
  RawMemoryAllocationStrategy <> SmartPointerAllocationStrategy /\
  (next_block initial_world ∉ live initial_world) /\
  always_ok (next_block initial_world) = true /\
  exists w1 l1 w2 l2,
    Allocate always_ok RawMemoryAllocationStrategy initial_world
      = (Ok (next_block initial_world), w1, l1) /\
    Deallocate RawMemoryAllocationStrategy (Some (next_block initial_world))
      w1 = (Ok tt, w2, l2) /\
    live w2 = live initial_world.
Proof.
  assert (N : RawMemoryAllocationStrategy <> SmartPointerAllocationStrategy)
    by discriminate.
  assert (F : next_block initial_world ∉ live initial_world).
  { simpl. apply not_elem_of_empty. }
  split; [exact N |]. split; [exact F |]. split; [reflexivity |].
  destruct (allocate_deallocate_round_trip always_ok
              RawMemoryAllocationStrategy initial_world N F eq_refl)
    as (w1 & l1 & w2 & l2 & E1 & _ & E2 & L & _).
  exists w1, l1, w2, l2. split; [exact E1 |]. split; assumption.
Defined.

Lemma guard_mutual_exclusion_witness :
  (AtomicSynchronizationStrategy = MutexSynchronizationStrategy \/
   AtomicSynchronizationStrategy = AtomicSynchronizationStrategy) /\
  threads (schedule always_ok NewAllocationStrategy StandardDisposalStrategy
             AtomicSynchronizationStrategy [0; 0; 1; 1; 1]
             (spawn 3 initial_world)) !! 0 = Some AtDoubleCheck /\
  in_guard AtDoubleCheck = true /\
  guard_held AtomicSynchronizationStrategy
    (shared (schedule always_ok NewAllocationStrategy
               StandardDisposalStrategy AtomicSynchronizationStrategy
               [0; 0; 1; 1; 1] (spawn 3 initial_world))) = true.
Proof.
  assert (H : threads (schedule always_ok NewAllocationStrategy
                         StandardDisposalStrategy
                         AtomicSynchronizationStrategy [0; 0; 1; 1; 1]
                         (spawn 3 initial_world)) !! 0 = Some AtDoubleCheck).
  { vm_compute. reflexivity. }
  split; [right; reflexivity |]. split; [exact H |]. split; [reflexivity |].
  exact (proj2 (guard_mutual_exclusion always_ok NewAllocationStrategy
                  StandardDisposalStrategy AtomicSynchronizationStrategy
                  3 [0; 0; 1; 1; 1] 0 0 AtDoubleCheck AtDoubleCheck
                  (or_intror eq_refl) H H eq_refl eq_refl)).
Defined.

Lemma guarded_calls_agree_witness :
  (MutexSynchronizationStrategy = MutexSynchronizationStrategy \/
   MutexSynchronizationStrategy = AtomicSynchronizationStrategy) /\
  constructed
    (shared (schedule never_ok RawMemoryAllocationStrategy
               ResurrectionStrategy MutexSynchronizationStrategy
               (round_robin 3 5) (spawn 3 initial_world))) <= 1.
Proof.
  split; [left; reflexivity |].
  destruct (guarded_calls_agree never_ok RawMemoryAllocationStrategy
              ResurrectionStrategy MutexSynchronizationStrategy 3
              (round_robin 3 5) (or_introl eq_refl)) as (_ & _ & H).
  exact H.
Defined.

Lemma lockless_double_construction_witness :
  (NoSynchronizationStrategy = NoSynchronizationStrategy \/
   NoSynchronizationStrategy = ThreadLocalStrategy) /\
  exists sched,
    constructed
      (shared (schedule always_ok NewAllocationStrategy
                 StandardDisposalStrategy NoSynchronizationStrategy sched
                 (spawn 2 initial_world))) = 2.
Proof.
  split; [left; reflexivity |].
  destruct (lockless_double_construction NewAllocationStrategy
              StandardDisposalStrategy NoSynchronizationStrategy
              (or_introl eq_refl)) as (sched & _ & H & _).
  exists sched. exact H.
Defined.

Lemma demo_two_options_set :
  ConfigManager_setOption always_ok "database.host" "localhost"
    initial_process = (Ok tt, demo_one_option) /\
  ConfigManager_setOption always_ok "database.port" "5432" demo_one_option
  = (Ok tt, demo_two_options).
Proof. split; vm_compute; reflexivity. Defined.

Lemma ConfigManager_set_then_get_witness :
  ConfigManager_setOption always_ok "database.host" "localhost"
    initial_process = (Ok tt, demo_one_option) /\
  ConfigManager_setOption always_ok "database.port" "5432" demo_one_option
  = (Ok tt, demo_two_options) /\
  "database.host"%string <> "database.port"%string /\
  ConfigManager_getOption always_ok "database.port" demo_two_options
  = (Ok "5432"%string, demo_two_options) /\
  ConfigManager_getOption always_ok "database.host" demo_two_options
  = (Ok "localhost"%string, demo_two_options).
Proof.
  assert (N : "database.host"%string <> "database.port"%string)
    by discriminate.
  destruct demo_two_options_set as [H1 H2].
  split; [exact H1 |]. split; [exact H2 |]. split; [exact N |].
  destruct (ConfigManager_set_then_get always_ok _ _ _ _ _ _ _ H1 H2)
    as [G1 G2].
  split; [exact G1 | exact (G2 N)].
Defined.

Lemma demo_two_options_inv :
  coordinator_inv SmartPointerAllocationStrategy ResurrectionStrategy
    MutexSynchronizationStrategy (statics demo_two_options).
Proof.
  unfold coordinator_inv. vm_compute. repeat split; reflexivity.
Defined.

Lemma ConfigManager_forgets_after_teardown_witness :
  coordinator_inv SmartPointerAllocationStrategy ResurrectionStrategy
    MutexSynchronizationStrategy (statics demo_two_options) /\
  always_ok (next_block (statics demo_two_options)) = true /\
  exists P2,
    ConfigManager_getOption always_ok "database.host"
      (ConfigManager_exit_handler demo_two_options).2
    = (Ok "undefined"%string, P2).
Proof.
  split; [exact demo_two_options_inv |]. split; [reflexivity |].
  destruct (ConfigManager_forgets_after_teardown always_ok "database.host"
              demo_two_options demo_two_options_inv eq_refl)
    as (_ & P2 & E & _).
  exists P2. exact E.
Defined.
